(** * Users of the realworld backend: domain model and postgres adapter

    A shallow embedding of
      - backend/domains/userdomain/user.go  (the in-memory user and its
        following list),
      - adapters/postgres/users.go          (the repository operations on
        users, run against a relational store), and
      - backend/ports/echohttp/server.go    (the logger's skipper),
    followed by the properties the specification states about them. *)

From stdpp Require Import base option list gmap strings.
From Stdlib Require Import ZArith Lia.

Open Scope Z_scope.
Open Scope string_scope.

(** ** Results of fallible Go functions

    A Go function returning [(T, error)] is embedded as a function to
    [result E T]; [Panic] is a run-time panic (a nil dereference). *)

Inductive result (E A : Type) : Type :=
| Ok (a : A)
| Err (e : E)
| Panic.
Arguments Ok {E A} a.
Arguments Err {E A} e.
Arguments Panic {E A}.

(** * backend/domains/userdomain/user.go *)

Module userdomain.

Inductive error :=
| ErrorRequiredNewUserFields
| ErrorRequiredUserFields
| BcryptError (msg : string).

(** A [*User]: [None] is the nil pointer. *)
Definition ptr := option nat.

Record User := mkUser {
  email : string;
  username : string;
  bio : string;
  image : string;
  following : list ptr
}.

Record UserWithPassword := mkUserWithPassword {
  user : User;
  password : string
}.

(** [len(s) == 0] *)
Definition is_empty (s : string) : bool := String.eqb s "".

Definition NewUser (email username bio image : string) : result error User :=
  if is_empty email || is_empty username
  then Err ErrorRequiredUserFields
  else Ok (mkUser email username bio image []).

Section WithBcrypt.
(** [bcrypt.GenerateFromPassword(password, cost)], from
    golang.org/x/crypto. *)
Variable GenerateFromPassword : string -> nat -> result error string.

Definition NewUserWithPassword (email username password : string)
  : result error UserWithPassword :=
  if is_empty password then Err ErrorRequiredNewUserFields
  else
    match NewUser email username "" "" with
    | Err e => Err e
    | Panic => Panic
    | Ok user =>
        match GenerateFromPassword password 14 with
        | Err e => Err e
        | Panic => Panic
        | Ok pw => Ok (mkUserWithPassword user pw)
        end
    end.
End WithBcrypt.

(** The Go heap, as far as users live in it: the methods below take
    pointers, and a following list holds pointers to users that may be
    shared (a user may even follow itself). *)
Abbreviation heap := (gmap nat User).

Definition deref (h : heap) (p : ptr) : option User :=
  match p with
  | None => None
  | Some a => h !! a
  end.

(** The loop of [IsFollowing]; [None] is a nil dereference. *)
Fixpoint IsFollowing_loop (h : heap) (fs : list ptr) (fu : ptr) : option bool :=
  match fs with
  | [] => Some false
  | f :: fs' =>
      match deref h f, deref h fu with
      | Some fv, Some fuv =>
          if String.eqb (email fv) (email fuv) then Some true
          else IsFollowing_loop h fs' fu
      | _, _ => None
      end
  end.

Definition IsFollowing (h : heap) (u fu : ptr) : option bool :=
  match deref h u with
  | None => None
  | Some uv => IsFollowing_loop h (following uv) fu
  end.

Definition set_following (uv : User) (fs : list ptr) : User :=
  mkUser (email uv) (username uv) (bio uv) (image uv) fs.

(** [StartFollowing] mutates [*u]; the result is the heap after the
    call, [None] when the call panics. *)
Definition StartFollowing (h : heap) (u fu : ptr) : option heap :=
  match IsFollowing h u fu with
  | None => None
  | Some true => Some h
  | Some false =>
      match u, deref h u with
      | Some a, Some uv =>
          Some (<[a := set_following uv (following uv ++ [fu])]> h)
      | _, _ => None
      end
  end.

(** What a caller may assume of a [*User] it got from this package:
    it is allocated, and so is every user on its following list. *)
Definition valid (h : heap) (p : ptr) : Prop := is_Some (deref h p).

Definition valid_user (h : heap) (u : ptr) : Prop :=
  exists uv, deref h u = Some uv /\ Forall (valid h) (following uv).

(** [NewUserWithPasswordHash]: the hash is taken as it is. *)
Definition NewUserWithPasswordHash (email username bio image password : string)
  : result error UserWithPassword :=
  match NewUser email username "" "" with
  | Err e => Err e
  | Panic => Panic
  | Ok user => Ok (mkUserWithPassword user password)
  end.

(** [Password()]: the bytes kept, as a string. *)
Definition Password (u : UserWithPassword) : string := password u.

Section WithBcryptCompare.
(** [bcrypt.CompareHashAndPassword(hash, password)]; [None] is the nil
    error. *)
Variable CompareHashAndPassword : string -> string -> option error.

Definition HasPassword (u : UserWithPassword) (pw : string)
  : bool * option error :=
  match CompareHashAndPassword (password u) pw with
  | Some err => (false, Some err)
  | None => (true, None)
  end.
End WithBcryptCompare.

(** [append(s[:i], s[i+1:]...)] for a slice [s] of length [cur] over the
    array [arr]: the elements after [i] move one place down inside the
    array, whose element at [cur - 1] stays where it was; the new slice is
    one shorter.  [None] is the panic of [s[i+1:]] when [i + 1] is beyond
    the length of [s]. *)
Definition remove_at (arr : list ptr) (cur i : nat) : option (list ptr * nat) :=
  if decide (i + 1 <= cur)%nat
  then Some ((take i arr ++ drop (S i) (take cur arr) ++ drop (cur - 1) arr)%list,
             (cur - 1)%nat)
  else None.

(** The loop of [StopFollowing].  [range] has fixed the array and the
    number of rounds when the loop starts; round [i] reads the array at
    [i], as the rounds before have left it, while [u.following] is by
    then the slice of length [cur]. *)
Fixpoint StopFollowing_loop (h : heap) (su : ptr) (rounds i : nat)
    (arr : list ptr) (cur : nat) : option (list ptr * nat) :=
  match rounds with
  | O => Some (arr, cur)
  | S rounds' =>
      match arr !! i with
      | None => None
      | Some f =>
          match deref h f, deref h su with
          | Some fv, Some suv =>
              if String.eqb (email fv) (email suv)
              then match remove_at arr cur i with
                   | None => None
                   | Some (arr', cur') =>
                       StopFollowing_loop h su rounds' (S i) arr' cur'
                   end
              else StopFollowing_loop h su rounds' (S i) arr cur
          | _, _ => None
          end
      end
  end.

(** [StopFollowing] mutates [*u]; the result is the heap after the call,
    [None] when the call panics. *)
Definition StopFollowing (h : heap) (u su : ptr) : option heap :=
  match u, deref h u with
  | Some a, Some uv =>
      let n := length (following uv) in
      match StopFollowing_loop h su n 0 (following uv) n with
      | None => None
      | Some (arr, cur) => Some (<[a := set_following uv (take cur arr)]> h)
      end
  | _, _ => None
  end.

(** The email behind a pointer, [None] for a pointer that is not
    allocated; and the emails on a following list. *)
Definition email_at (h : heap) (p : ptr) : option string :=
  email <$> deref h p.

Definition followed_emails (h : heap) (fs : list ptr) : list (option string) :=
  email_at h <$> fs.

(** What the methods keep of a user: it is allocated, so is everyone it
    follows, and it follows nobody twice. *)
Definition following_ok (h : heap) (u : ptr) : Prop :=
  exists uv, deref h u = Some uv
             /\ Forall (valid h) (following uv)
             /\ NoDup (followed_emails h (following uv)).

End userdomain.

(** * domain/repository.go, and the domain types the adapter uses *)

Module domain.

(** The error values that reach a caller of the repository.  The first
    five are the package's exported sentinels; [ErrNoRows] is
    [pgx.ErrNoRows]; [PgError code] is a [*pgconn.PgError] with that
    SQLSTATE; [Failure msg] is any other error value (an I/O failure of
    the driver, or whatever a caller's transform returns). *)
Inductive error :=
| ErrUserNotFound
| ErrDuplicateUser
| ErrNoAuthor
| ErrArticleNotFound
| ErrDuplicateArticle
| ErrNoRows
| PgError (code : string)
| Failure (msg : string).

(** Modelled from the spec: the declaration of [domain.User] is not part
    of the sources at hand.  Section 3 gives its attributes (email,
    username, bio, image, password hash), and users.go reads and scans
    exactly the fields [Email], [Username], [Bio], [Image], [Password]. *)
Record User := mkUser {
  Email : string;
  Username : string;
  Bio : string;
  Image : string;
  Password : string
}.

(** Modelled from the spec: [domain.Fanboy] is a [User] with two
    maps used as sets, [Following] (emails) and [Favorites] (slugs);
    users.go builds it with these three fields. *)
Record Fanboy := mkFanboy {
  Fanboy_User : User;
  Following : gset string;
  Favorites : gset string
}.

(** Modelled from the spec: [domain.Author] is the read-only capability
    (email, bio, image) that a user satisfies. *)
Class Author (A : Type) := {
  GetEmail : A -> string;
  GetBio : A -> string;
  GetImage : A -> string
}.

#[export] Instance User_Author : Author User :=
  {| GetEmail := Email; GetBio := Bio; GetImage := Image |}.

End domain.

(** * The relational store *)

Module store.
Import domain.

(** Modelled from the spec: the schema (the migration) is not part of the
    sources at hand.  Section 6 lists the tables and their columns,
    section 3 the two uniqueness invariants on users (email, username);
    [id] is the surrogate key the statements of users.go join on.  Of
    [articles] only the columns users.go touches are kept. *)
Record UserRow := mkUserRow {
  id : Z;
  email : string;
  username : string;
  bio : string;
  image : string
}.

Record PasswordRow := mkPasswordRow {
  pw_id : Z;
  hash : string
}.

Record ArticleRow := mkArticleRow {
  article_id : Z;
  slug : string
}.

Record Tables := mkTables {
  users : list UserRow;
  user_passwords : list PasswordRow;
  followed_users : list (Z * Z);        (* follower_id, followed_id *)
  articles : list ArticleRow;
  favorited_articles : list (Z * Z)     (* user_id, article_id *)
}.

Definition set_users (T : Tables) (us : list UserRow) : Tables :=
  mkTables us (user_passwords T) (followed_users T) (articles T)
           (favorited_articles T).
Definition set_user_passwords (T : Tables) (ps : list PasswordRow) : Tables :=
  mkTables (users T) ps (followed_users T) (articles T)
           (favorited_articles T).
Definition set_followed_users (T : Tables) (fs : list (Z * Z)) : Tables :=
  mkTables (users T) (user_passwords T) fs (articles T)
           (favorited_articles T).
Definition set_favorited_articles (T : Tables) (fs : list (Z * Z)) : Tables :=
  mkTables (users T) (user_passwords T) (followed_users T) (articles T) fs.

(** [pgerrcode.UniqueViolation] *)
Definition UniqueViolation : string := "23505".

(** The statements of users.go, as names for the trace. *)
Inductive Stmt :=
| InsertUser | InsertPassword | SelectUser
| SelectFollows | SelectFavorites
| UpdateUser | UpdatePassword
| DeleteFollows | DeleteFavorites | InsertFollows | InsertFavorites.

(** What the store saw: a statement runs on the pool ([None]) or inside
    the transaction with the given number. *)
Inductive Event :=
| EBegin (tx : nat)
| EBeginFailed (e : error)
| EStmt (conn : option nat) (s : Stmt) (err : option error)
| ECommit (tx : nat) (err : option error)
| ERollback (tx : nat).

(** The world an operation runs in: the committed tables, the sequence
    behind [users.id] (sequences are not transactional), the failures
    the store is going to have (one entry per call that reaches it;
    [Some msg] makes that call fail before it does anything), and the
    trace so far. *)
Record World := mkWorld {
  tables : Tables;
  users_id_seq : Z;
  faults : list (option string);
  next_tx : nat;
  log : list Event
}.

(** An open transaction: its number and its working copy of the tables. *)
Record Tx := mkTx {
  tx_id : nat;
  tx_tables : Tables
}.

(** [pgxscan.Querier]: the pool [r.db], or a transaction. *)
Inductive Querier :=
| Pool
| InTx (t : Tx).

Definition conn_of (q : Querier) : option nat :=
  match q with
  | Pool => None
  | InTx t => Some (tx_id t)
  end.

(** A store call either is done or has failed. *)
Inductive outcome (A : Type) : Type :=
| Done (a : A)
| Failed (e : error).
Arguments Done {A} a.
Arguments Failed {A} e.

Definition error_of {A} (o : outcome A) : option error :=
  match o with
  | Done _ => None
  | Failed e => Some e
  end.

(** *** The state monad of the world *)

Definition M (A : Type) : Type := World -> World * A.

Definition ret {A} (a : A) : M A := fun w => (w, a).

Definition bind {A B} (m : M A) (k : A -> M B) : M B :=
  fun w => let (w', a) := m w in k a w'.

Declare Scope store_scope.
Delimit Scope store_scope with store.
Notation "'let*' x := m 'in' k" := (bind m (fun x => k))
  (at level 10, x pattern, m at level 100, k at level 200) : store_scope.
Notation "m ;;; k" := (bind m (fun _ => k))
  (at level 100, right associativity) : store_scope.
Open Scope store_scope.

Definition emit (ev : Event) : M unit :=
  fun w => (mkWorld (tables w) (users_id_seq w) (faults w) (next_tx w)
                    (log w ++ [ev]), tt).

(** The failure, if any, that the store has in stock for the call that
    reaches it next. *)
Definition pending (fs : list (option string)) : option string :=
  match fs with
  | Some msg :: _ => Some msg
  | _ => None
  end.

Definition next_fault : M (option error) :=
  fun w =>
    (mkWorld (tables w) (users_id_seq w) (tail (faults w)) (next_tx w)
             (log w),
     match pending (faults w) with
     | Some msg => Some (Failure msg)
     | None => None
     end).

Definition nextval : M Z :=
  fun w => (mkWorld (tables w) (users_id_seq w + 1) (faults w) (next_tx w)
                    (log w), users_id_seq w).

Definition get_tables : M Tables := fun w => (w, tables w).

Definition put_tables (T : Tables) : M unit :=
  fun w => (mkWorld T (users_id_seq w) (faults w) (next_tx w) (log w), tt).

Definition fresh_tx : M nat :=
  fun w => (mkWorld (tables w) (users_id_seq w) (faults w) (S (next_tx w))
                    (log w), next_tx w).

(** *** Transactions *)

Definition BeginTx : M (outcome Tx) :=
  let* f := next_fault in
  match f with
  | Some e => emit (EBeginFailed e) ;;; ret (Failed e)
  | None =>
      let* n := fresh_tx in
      let* T := get_tables in
      emit (EBegin n) ;;;
      ret (Done (mkTx n T))
  end.

(** A commit that fails leaves the committed tables as they were. *)
Definition Commit (t : Tx) : M (option error) :=
  let* f := next_fault in
  match f with
  | Some e => emit (ECommit (tx_id t) (Some e)) ;;; ret (Some e)
  | None =>
      put_tables (tx_tables t) ;;;
      emit (ECommit (tx_id t) None) ;;;
      ret None
  end.

(** The working copy is dropped.  users.go ignores what Rollback
    returns. *)
Definition Rollback (t : Tx) : M unit :=
  emit (ERollback (tx_id t)).

(** A statement that only reads. *)
Definition query {A} (q : Querier) (s : Stmt) (sem : Tables -> outcome A)
  : M (outcome A) :=
  let* f := next_fault in
  let* T := get_tables in
  let r := match f with
           | Some e => Failed e
           | None => sem (match q with Pool => T | InTx t => tx_tables t end)
           end in
  emit (EStmt (conn_of q) s (error_of r)) ;;;
  ret r.

(** A statement that writes, inside a transaction: on success the
    transaction's working copy is replaced. *)
Definition exec {A} (t : Tx) (s : Stmt)
    (sem : M (Tables -> outcome (Tables * A))) : M (Tx * outcome A) :=
  let* f := next_fault in
  match f with
  | Some e =>
      emit (EStmt (Some (tx_id t)) s (Some e)) ;;; ret (t, Failed e)
  | None =>
      let* run := sem in
      match run (tx_tables t) with
      | Failed e =>
          emit (EStmt (Some (tx_id t)) s (Some e)) ;;; ret (t, Failed e)
      | Done (T', a) =>
          emit (EStmt (Some (tx_id t)) s None) ;;;
          ret (mkTx (tx_id t) T', Done a)
      end
  end.

End store.

(** * The statements of adapters/postgres/users.go

    Each SQL text of users.go as a function on the tables.  A [FROM a, b
    WHERE ...] is the comprehension over both tables; comparisons of text
    are exact. *)

Module sql.
Import domain store.

(** [INSERT INTO users (email, username, bio, image) VALUES ($1, $2, $3,
    $4) RETURNING id], the id being drawn from the sequence. *)
Definition insert_user (new_id : Z) (u : User) (T : Tables)
  : outcome (Tables * Z) :=
  if bool_decide (Exists (fun r => id r = new_id \/ email r = Email u
                                   \/ username r = Username u) (users T))
  then Failed (PgError UniqueViolation)
  else Done (set_users T (users T ++
               [mkUserRow new_id (Email u) (Username u) (Bio u) (Image u)]),
             new_id).

(** [INSERT INTO user_passwords (id, hash) VALUES ($1, $2)] *)
Definition insert_password (uid : Z) (h : string) (T : Tables)
  : outcome (Tables * unit) :=
  Done (set_user_passwords T (user_passwords T ++ [mkPasswordRow uid h]), tt).

(** [SELECT u.email, u.username, u.bio, u.image, p.hash as password
     FROM users u, user_passwords p WHERE u.email = $1 AND u.id = p.id] *)
Definition user_rows (em : string) (T : Tables) : list User :=
  u ← users T; p ← user_passwords T;
  if bool_decide (email u = em /\ id u = pw_id p)
  then [mkUser (email u) (username u) (bio u) (image u) (hash p)]
  else [].

(** [pgxscan.Get] wants exactly one row. *)
Definition select_user (em : string) (T : Tables) : outcome User :=
  match user_rows em T with
  | [] => Failed ErrNoRows
  | [u] => Done u
  | _ :: _ :: _ => Failed (Failure "scany: expected 1 row, got more")
  end.

(** [SELECT f.email FROM users u, followed_users fu, users f
     WHERE u.email = $1 AND u.id = fu.follower_id AND f.id = fu.followed_id] *)
Definition select_follows (em : string) (T : Tables) : outcome (list string) :=
  Done (u ← users T; fu ← followed_users T; f ← users T;
        if bool_decide (email u = em /\ id u = fu.1 /\ id f = fu.2)
        then [email f] else []).

(** [SELECT a.slug FROM users u, favorited_articles fa, articles a
     WHERE u.email = $1 AND u.id = fa.user_id AND a.id = fa.article_id] *)
Definition select_favorites (em : string) (T : Tables) : outcome (list string) :=
  Done (u ← users T; fa ← favorited_articles T; a ← articles T;
        if bool_decide (email u = em /\ id u = fa.1 /\ article_id a = fa.2)
        then [slug a] else []).

(** [UPDATE users SET email = $2, username = $3, bio = $4, image = $5
     WHERE email = $1 RETURNING id], scanned into one id: no row is
    [pgx.ErrNoRows]; a row that now shares its email or username with
    another one violates the unique constraint. *)
Definition update_user (em : string) (u : User) (T : Tables)
  : outcome (Tables * Z) :=
  match filter (fun r => email r = em) (users T) with
  | [] => Failed ErrNoRows
  | r0 :: _ =>
      let us' := (fun r => if bool_decide (email r = em)
                           then mkUserRow (id r) (Email u) (Username u)
                                          (Bio u) (Image u)
                           else r) <$> users T in
      if bool_decide
           ((1 < length (filter (fun r => email r = Email u) us'))%nat
            \/ (1 < length (filter (fun r => username r = Username u) us'))%nat)
      then Failed (PgError UniqueViolation)
      else Done (set_users T us', id r0)
  end.

(** [UPDATE user_passwords SET hash = $2 WHERE id = $1] *)
Definition update_password (uid : Z) (h : string) (T : Tables)
  : outcome (Tables * unit) :=
  Done (set_user_passwords T
          ((fun p => if bool_decide (pw_id p = uid)
                     then mkPasswordRow (pw_id p) h else p)
             <$> user_passwords T), tt).

(** [DELETE FROM followed_users USING users u
     WHERE u.email = $1 AND follower_id = u.id] *)
Definition delete_follows (em : string) (T : Tables)
  : outcome (Tables * unit) :=
  Done (set_followed_users T
          (filter (fun fu => ~ Exists (fun u => email u = em /\ fu.1 = id u)
                                      (users T))
                  (followed_users T)), tt).

(** [DELETE FROM favorited_articles USING users u
     WHERE u.email = $1 AND user_id = u.id] *)
Definition delete_favorites (em : string) (T : Tables)
  : outcome (Tables * unit) :=
  Done (set_favorited_articles T
          (filter (fun fa => ~ Exists (fun u => email u = em /\ fa.1 = id u)
                                      (users T))
                  (favorited_articles T)), tt).

(** [INSERT INTO followed_users (follower_id, followed_id)
     (SELECT u.id, f.id FROM users u, users f
      WHERE u.email = $1 AND f.email = ANY($2))] *)
Definition followed_rows (em : string) (follows : list string) (T : Tables)
  : list (Z * Z) :=
  u ← users T; f ← users T;
  if bool_decide (email u = em /\ email f ∈ follows)
  then [(id u, id f)] else [].

Definition insert_follows (em : string) (follows : list string) (T : Tables)
  : outcome (Tables * unit) :=
  Done (set_followed_users T (followed_users T ++ followed_rows em follows T),
        tt).

(** [INSERT INTO favorited_articles (user_id, article_id)
     (SELECT u.id, a.id FROM users u, articles a
      WHERE u.email = $1 AND a.slug = ANY($2))] *)
Definition favorited_rows (em : string) (favors : list string) (T : Tables)
  : list (Z * Z) :=
  u ← users T; a ← articles T;
  if bool_decide (email u = em /\ slug a ∈ favors)
  then [(id u, article_id a)] else [].

Definition insert_favorites (em : string) (favors : list string) (T : Tables)
  : outcome (Tables * unit) :=
  Done (set_favorited_articles T
          (favorited_articles T ++ favorited_rows em favors T), tt).

(** [SELECT u.email, u.username, u.bio, u.image, p.hash as password
     FROM users u, user_passwords p WHERE u.username = $1 AND u.id = p.id] *)
Definition user_rows_by_username (un : string) (T : Tables) : list User :=
  u ← users T; p ← user_passwords T;
  if bool_decide (username u = un /\ id u = pw_id p)
  then [mkUser (email u) (username u) (bio u) (image u) (hash p)]
  else [].

Definition select_user_by_username (un : string) (T : Tables) : outcome User :=
  match user_rows_by_username un T with
  | [] => Failed ErrNoRows
  | [u] => Done u
  | _ :: _ :: _ => Failed (Failure "scany: expected 1 row, got more")
  end.

End sql.

(** * adapters/postgres/users.go *)

Module postgres.
Import domain store.

(** [errors.As(err, &pgErr) && pgErr.Code == pgerrcode.UniqueViolation] *)
Definition is_unique_violation (e : error) : bool :=
  match e with
  | PgError code => bool_decide (code = UniqueViolation)
  | _ => false
  end.

(** [errors.Is(err, pgx.ErrNoRows)] *)
Definition is_no_rows (e : error) : bool :=
  match e with
  | ErrNoRows => true
  | _ => false
  end.

(** [defer d]: [d] runs when the body returns, whatever it returns. *)
Definition defer {A B} (d : M B) (body : M A) : M A :=
  let* a := body in
  d ;;;
  ret a.

Definition getUserByEmail (q : Querier) (em : string) : M (result error User) :=
  let* r := query q SelectUser (sql.select_user em) in
  match r with
  | Failed e =>
      if is_no_rows e then ret (Err ErrUserNotFound) else ret (Err e)
  | Done found => ret (Ok found)
  end.

(** [u] is the user behind the pointer the caller passes. *)
Definition CreateUser (u : User) : M (result error User) :=
  let* r := BeginTx in
  match r with
  | Failed e => ret (Err e)
  | Done tx =>
      let* (tx, r) := exec tx InsertUser
                  (let* new_id := nextval in ret (sql.insert_user new_id u)) in
      match r with
      | Failed e =>
          Rollback tx ;;;
          if is_unique_violation e then ret (Err ErrDuplicateUser)
          else ret (Err e)
      | Done uid =>
          let* (tx, r) := exec tx InsertPassword
                             (ret (sql.insert_password uid (Password u))) in
          match r with
          | Failed e => Rollback tx ;;; ret (Err e)
          | Done _ =>
              let* c := Commit tx in
              match c with
              | Some e => ret (Err e)
              | None => getUserByEmail Pool (Email u)
              end
          end
      end
  end.

(** [GetAuthorByEmail] returns the interface [domain.Author]: the user
    found, seen through [domain.User_Author], or nil. *)
Definition GetAuthorByEmail (em : string) : M (option User) :=
  let* r := getUserByEmail Pool em in
  match r with
  | Ok auth => ret (Some auth)
  | _ => ret None
  end.

(** A transform hands back a pointer and an error, either of which may
    be nil. *)
Definition transform (A : Type) : Type := A -> option A * option error.

Definition UpdateUserByEmail (em : string) (update : transform User)
  : M (result error User) :=
  let* r := BeginTx in
  match r with
  | Failed e => ret (Err e)
  | Done tx =>
      let* r := getUserByEmail (InTx tx) em in
      match r with
      | Err e => Rollback tx ;;; ret (Err e)
      | Panic => ret Panic
      | Ok u =>
          match update u with
          | (_, Some e) => Rollback tx ;;; ret (Err e)
          | (None, None) => ret Panic
          | (Some u, None) =>
              let* (tx, r) := exec tx UpdateUser
                                 (ret (sql.update_user em u)) in
              match r with
              | Failed e =>
                  Rollback tx ;;;
                  if is_unique_violation e then ret (Err ErrDuplicateUser)
                  else ret (Err e)
              | Done uid =>
                  let* (tx, r) := exec tx UpdatePassword
                            (ret (sql.update_password uid (Password u))) in
                  match r with
                  | Failed e => Rollback tx ;;; ret (Err e)
                  | Done _ =>
                      let* c := Commit tx in
                      match c with
                      | Some e => ret (Err e)
                      | None => getUserByEmail Pool (Email u)
                      end
                  end
              end
          end
      end
  end.

(** The keys of a map that are not the empty string, in the order the
    [range] loop meets them. *)
Definition nonempty_keys (m : gset string) : list string :=
  filter (fun k => k <> "") (elements m).

Section WithToLower.
(** [strings.ToLower] of the Go library. *)
Variable ToLower : string -> string.

Definition GetUserByEmail (em : string) : M (result error Fanboy) :=
  let* r := BeginTx in
  match r with
  | Failed e => ret (Err e)
  | Done tx =>
      defer (Commit tx)
        (let* r := getUserByEmail (InTx tx) em in
         match r with
         | Err e => ret (Err e)
         | Panic => ret Panic
         | Ok found =>
             let* r := query (InTx tx) SelectFollows
                             (sql.select_follows em) in
             match r with
             | Failed e => ret (Err e)
             | Done follows =>
                 let following : gset string :=
                   list_to_set (ToLower <$> follows) in
                 let* r := query (InTx tx) SelectFavorites
                                 (sql.select_favorites em) in
                 match r with
                 | Failed e => ret (Err e)
                 | Done favors =>
                     let favorites : gset string :=
                       list_to_set (ToLower <$> favors) in
                     ret (Ok (mkFanboy found following favorites))
                 end
             end
         end)
  end.

Definition UpdateFanboyByEmail (em : string) (update : transform Fanboy)
  : M (result error unit) :=
  let* r := GetUserByEmail em in
  match r with
  | Err e => ret (Err e)
  | Panic => ret Panic
  | Ok f =>
      match update f with
      | (_, Some e) => ret (Err e)
      | (f, None) =>
          let* r := BeginTx in
          match r with
          | Failed e => ret (Err e)
          | Done tx =>
              let* (tx, r) := exec tx DeleteFollows
                                 (ret (sql.delete_follows em)) in
              match r with
              | Failed e => Rollback tx ;;; ret (Err e)
              | Done _ =>
              let* (tx, r) := exec tx DeleteFavorites
                                 (ret (sql.delete_favorites em)) in
              match r with
              | Failed e => Rollback tx ;;; ret (Err e)
              | Done _ =>
              match f with
              | None => ret Panic
              | Some f =>
              let follows := nonempty_keys (Following f) in
              let* (tx, r) := exec tx InsertFollows
                                 (ret (sql.insert_follows em follows)) in
              match r with
              | Failed e => Rollback tx ;;; ret (Err e)
              | Done _ =>
              let favors := nonempty_keys (Favorites f) in
              let* (tx, r) := exec tx InsertFavorites
                                 (ret (sql.insert_favorites em favors)) in
              match r with
              | Failed e => Rollback tx ;;; ret (Err e)
              | Done _ =>
                  let* c := Commit tx in
                  match c with
                  | Some e => ret (Err e)
                  | None => ret (Ok tt)
                  end
              end end end end end
          end
      end
  end.
End WithToLower.

(** [GetUserByUsername]; in the trace its select goes by the name of the
    select of a user, which it is. *)
Definition GetUserByUsername (un : string) : M (result error User) :=
  let* r := query Pool SelectUser (sql.select_user_by_username un) in
  match r with
  | Failed e =>
      if is_no_rows e then ret (Err ErrUserNotFound) else ret (Err e)
  | Done found => ret (Ok found)
  end.

End postgres.

(** * backend/ports/echohttp/server.go *)

Module echohttp.

(** [http.MethodPost], [http.MethodPut] *)
Definition MethodPost : string := "POST".
Definition MethodPut : string := "PUT".

Section WithToLower.
(** [strings.ToLower] of the Go library. *)
Variable ToLower : string -> string.

(** The [Skipper] of the logger in [Start], on the path and the method of
    the request; [strings.HasPrefix(s, p)] is [String.prefix p s]. *)
Definition Skipper (path method : string) : bool :=
  if String.prefix "/api/users/login" (ToLower path) then true
  else if String.prefix "/api/user" (ToLower path)
          && (String.eqb method MethodPost || String.eqb method MethodPut)
  then true
  else false.
End WithToLower.

Definition MethodGet : string := "GET".
Definition MethodDelete : string := "DELETE".

(** The routes of [userHandler.routes], each with its method and its path,
    in the order they are registered; [Start] registers them on the group
    [s.Group("/api")], so the path of a route ([c.Path()]) is its path here
    behind that prefix. *)
Definition routes : list (string * string) :=
  [(MethodPost, "/users");
   (MethodPost, "/users/login");
   (MethodGet, "/user");
   (MethodPut, "/user");
   (MethodGet, "/profile/:username");
   (MethodGet, "/profile/:username/follow");
   (MethodDelete, "/profile/:username/follow")].

Definition route_path (p : string) : string := "/api" ++ p.

End echohttp.

(** * Vocabulary of the properties *)

Module props.
Import domain store postgres.

(** What the store saw between two worlds. *)
Definition trace (w w' : World) : list Event :=
  drop (length (log w)) (log w').

(** The store answers its next [n] calls without a failure of its own. *)
Definition calm (n : nat) (w : World) : Prop :=
  Forall (fun f => f = None) (take n (faults w)).

Definition is_write (s : Stmt) : bool :=
  match s with
  | SelectUser | SelectFollows | SelectFavorites => false
  | _ => true
  end.

(** How CreateUser and UpdateUserByEmail report an error of the
    statement that writes the users row. *)
Definition translated (e : error) : error :=
  if is_unique_violation e then ErrDuplicateUser else e.

(** A statement of the persist step failed with [e], in transaction [n]. *)
Definition persist_error (l : list Event) (n : nat) (e : error) : Prop :=
  exists s, is_write s = true /\ EStmt (Some n) s (Some e) ∈ l.

(** The store failed with [e]: at begin, in a statement, or at commit.
    A select that finds no row is not a failure of the store; it is how
    the adapter learns that there is no such user. *)
Definition store_failure (l : list Event) (e : error) : Prop :=
  EBeginFailed e ∈ l
  \/ (exists c s, EStmt c s (Some e) ∈ l /\ ~ (is_write s = false /\ e = ErrNoRows))
  \/ (exists n, ECommit n (Some e) ∈ l).

(** How a run from [w] to [w'] that returned [r] must have reported the
    error [e], had the store raised it: from a statement of the persist
    step, a unique violation as [ErrDuplicateUser] and anything else as
    it is, with the tables as they were and the transaction rolled
    back; from anywhere, a failure that is no unique violation as it
    is. *)
Definition reported (w w' : World) (r : result error User) (e : error)
  : Prop :=
  (forall n, persist_error (trace w w') n e ->
     (is_unique_violation e = true -> r = Err ErrDuplicateUser)
     /\ (is_unique_violation e = false -> r = Err e)
     /\ tables w' = tables w
     /\ ERollback n ∈ trace w w')
  /\ (store_failure (trace w w') e -> is_unique_violation e = false ->
      r = Err e).

(** Modelled from the spec: the constraints of the schema, which is not
    part of the sources at hand.  Emails and usernames are unique
    (section 3), rows are keyed by their surrogate id, and a credential
    row is keyed by the id of its user (section 4.2). *)
Definition schema_ok (T : Tables) : Prop :=
  NoDup (id <$> users T)
  /\ NoDup (email <$> users T)
  /\ NoDup (username <$> users T)
  /\ NoDup (pw_id <$> user_passwords T)
  /\ Forall (fun p => Exists (fun u => id u = pw_id p) (users T))
            (user_passwords T).

(** Articles are keyed by their id, and no edge is there twice. *)
Definition edges_ok (T : Tables) : Prop :=
  NoDup (article_id <$> articles T)
  /\ NoDup (followed_users T)
  /\ NoDup (favorited_articles T).

(** The user that the row [u] and its credential row [p] stand for. *)
Definition user_of (u : UserRow) (p : PasswordRow) : User :=
  mkUser (email u) (username u) (bio u) (image u) (hash p).

(** [em] is the email of a user of the store, with its credential row. *)
Definition stored_user (T : Tables) (em : string) (v : User) : Prop :=
  exists u p, u ∈ users T /\ p ∈ user_passwords T
              /\ email u = em /\ id u = pw_id p /\ v = user_of u p.

(** What [UPDATE users ... WHERE email = $1] makes of a row, and
    [UPDATE user_passwords ... WHERE id = $1] of a credential row. *)
Definition rekeyed (em : string) (u : User) (r : UserRow) : UserRow :=
  if bool_decide (email r = em)
  then mkUserRow (id r) (Email u) (Username u) (Bio u) (Image u)
  else r.

Definition rehashed (uid : Z) (h : string) (p : PasswordRow) : PasswordRow :=
  if bool_decide (pw_id p = uid) then mkPasswordRow (pw_id p) h else p.

(** An edge table after the full replace: the edges of the users with
    email [em] are gone, the [new] ones are there. *)
Definition replaced_edges (em : string) (T : Tables) (old new : list (Z * Z))
  : list (Z * Z) :=
  filter (fun e => ~ Exists (fun u => email u = em /\ e.1 = id u) (users T))
         old ++ new.

(** The shape of a run of the read-transform-write protocol in one
    transaction: begin, the load inside the transaction, the writes
    inside the same transaction, then rollback, or commit followed by
    nothing but reads on the pool.  A run that panics leaves the
    transaction open. *)
Definition pool_read (ev : Event) : bool :=
  match ev with
  | EStmt None s _ => negb (is_write s)
  | _ => false
  end.

Fixpoint inside_tx (n : nat) (l : list Event) : bool :=
  match l with
  | [] => true
  | EStmt (Some m) _ _ :: l' => bool_decide (m = n) && inside_tx n l'
  | ERollback m :: l' => bool_decide (m = n) && bool_decide (l' = [])
  | ECommit m _ :: l' => bool_decide (m = n) && forallb pool_read l'
  | _ => false
  end.

Definition one_tx_protocol (l : list Event) : bool :=
  match l with
  | [EBeginFailed _] => true
  | EBegin n :: EStmt (Some m) SelectUser r :: l' =>
      bool_decide (m = n) && inside_tx n (EStmt (Some m) SelectUser r :: l')
  | _ => false
  end.

(** A read-only transaction: begin, reads inside it, commit. *)
Fixpoint reads_then_commit (n : nat) (l : list Event) : option (list Event) :=
  match l with
  | EStmt (Some m) s _ :: l' =>
      if bool_decide (m = n) && negb (is_write s)
      then reads_then_commit n l' else None
  | ECommit m _ :: l' => if bool_decide (m = n) then Some l' else None
  | _ => None
  end.

(** Writes in one transaction, ended by rollback or commit (or left
    open by a panic). *)
Fixpoint writes_then_end (n : nat) (l : list Event) : bool :=
  match l with
  | [] => true
  | EStmt (Some m) s _ :: l' =>
      bool_decide (m = n) && is_write s && writes_then_end n l'
  | [ERollback m] => bool_decide (m = n)
  | [ECommit m _] => bool_decide (m = n)
  | _ => false
  end.

(** The shape of a run of UpdateFanboyByEmail: the load is a read-only
    transaction of its own, which has ended when the persist begins in
    a second transaction. *)
Definition two_tx_protocol (l : list Event) : bool :=
  match l with
  | [EBeginFailed _] => true
  | EBegin n :: l' =>
      match reads_then_commit n l' with
      | None => false
      | Some [] => true
      | Some [EBeginFailed _] => true
      | Some (EBegin m :: l'') =>
          bool_decide (m <> n) && writes_then_end m l''
      | Some _ => false
      end
  | _ => false
  end.

(** The sequence behind [users.id] is ahead of every id in the table. *)
Definition seq_ok (w : World) : Prop :=
  Forall (fun r => id r < users_id_seq w) (users (tables w)).

End props.

(** * A store to run the operations on *)

Module example.
Import domain store postgres.

(** Lower case of the letters A to Z, on which [strings.ToLower] agrees. *)
Definition lower_ascii (c : Ascii.ascii) : Ascii.ascii :=
  let n := Ascii.nat_of_ascii c in
  if ((65 <=? n) && (n <=? 90))%nat then Ascii.ascii_of_nat (n + 32) else c.

Fixpoint ToLower (s : string) : string :=
  match s with
  | EmptyString => EmptyString
  | String c s' => String (lower_ascii c) (ToLower s')
  end.

(** Four users; the first follows a and b and has favorited one
    article. *)
Definition T0 : Tables :=
  mkTables
    [mkUserRow 1 "u@x.com" "u" "" ""; mkUserRow 2 "a@x.com" "a" "" "";
     mkUserRow 3 "b@x.com" "b" "" ""; mkUserRow 4 "c@x.com" "c" "" ""]
    [mkPasswordRow 1 "h1"; mkPasswordRow 2 "h2";
     mkPasswordRow 3 "h3"; mkPasswordRow 4 "h4"]
    [(1, 2); (1, 3); (2, 1)]
    [mkArticleRow 10 "s1"; mkArticleRow 11 "s2"]
    [(1, 10)].

Definition w0 : World := mkWorld T0 5 [] 0 [].

(** The same store, whose second call is going to fail. *)
Definition w0_failing : World := mkWorld T0 5 [None; Some "connection reset"] 0 [].

(** The same store, out of reach. *)
Definition w0_down : World := mkWorld T0 5 [Some "connection refused"] 0 [].

Definition set_sets (following favorites : gset string) : transform Fanboy :=
  fun f => (Some (mkFanboy (Fanboy_User f) following favorites), None).

Definition set_email (em : string) : transform User :=
  fun u => (Some (mkUser em (Username u) (Bio u) (Image u) (Password u)),
            None).

Definition failing {A} (e : error) : transform A :=
  fun a => (Some a, Some e).

Definition keep {A} : transform A := fun a => (Some a, None).

Definition u_row : UserRow := mkUserRow 1 "u@x.com" "u" "" "".
Definition u_pw : PasswordRow := mkPasswordRow 1 "h1".
Definition a_row : UserRow := mkUserRow 2 "a@x.com" "a" "" "".
Definition c_row : UserRow := mkUserRow 4 "c@x.com" "c" "" "".

(** Two users on the heap, neither following anyone. *)
Definition h0 : gmap nat userdomain.User :=
  {[ 0%nat := userdomain.mkUser "a@x.com" "a" "" "" [];
     1%nat := userdomain.mkUser "b@x.com" "b" "" "" [] ]}.

(** Three users on the heap, the first following the other two; and the
    same heap with a second user that has the email of b. *)
Definition h1 : gmap nat userdomain.User :=
  {[ 0%nat := userdomain.mkUser "a@x.com" "a" "" "" [Some 1%nat; Some 2%nat];
     1%nat := userdomain.mkUser "b@x.com" "b" "" "" [];
     2%nat := userdomain.mkUser "c@x.com" "c" "" "" [] ]}.

Definition h1_unfollowed : gmap nat userdomain.User :=
  <[ 0%nat := userdomain.mkUser "a@x.com" "a" "" "" [Some 2%nat] ]> h1.

Definition h2 : gmap nat userdomain.User :=
  <[ 3%nat := userdomain.mkUser "b@x.com" "b2" "" "" [] ]> h1.

(** A stand-in for bcrypt, to run the constructors on. *)
Definition GenerateFromPassword (pw : string) (cost : nat)
  : result userdomain.error string :=
  Ok ("$2a$" ++ pw).

Definition CompareHashAndPassword (h pw : string) : option userdomain.error :=
  if String.eqb h ("$2a$" ++ pw) then None
  else Some (userdomain.BcryptError "not the hash of the given password").

(** The store of the examples, answering four calls and failing the
    fifth. *)
Definition w0_reread_fails : World :=
  mkWorld T0 5 [None; None; None; None; Some "connection reset"] 0 [].

(** A transform that hands back neither a value nor an error. *)
Definition nothing {A} : transform A := fun _ => (None, None).

Definition n_user : User := mkUser "n@x.com" "n" "" "" "pw".

End example.

(** * Properties of the user domain *)

Open Scope list_scope.

Section UserDomain.
Import userdomain.

Lemma is_empty_spec (s : string) : is_empty s = true <-> s = "".
Proof. unfold is_empty. apply String.eqb_eq. Qed.

Lemma is_empty_false (s : string) : is_empty s = false <-> s <> "".
Proof. unfold is_empty. apply String.eqb_neq. Qed.

Lemma NewUser_error email username bio image :
  NewUser email username bio image = Err ErrorRequiredUserFields
  <-> email = "" \/ username = "".
Proof.
  unfold NewUser. rewrite <- !is_empty_spec.
  destruct (is_empty email), (is_empty username); simpl; split;
    first [ discriminate | intros [?|?]; discriminate | auto ].
Qed.

Lemma NewUser_ok email username bio image :
  email <> "" -> username <> "" ->
  NewUser email username bio image = Ok (mkUser email username bio image []).
Proof.
  intros He Hu. unfold NewUser.
  apply is_empty_false in He, Hu. by rewrite He, Hu.
Qed.

(** C9: [NewUser] fails with [ErrorRequiredUserFields] exactly when the
    email or the username is empty, and otherwise returns the user with
    the four fields given and nobody followed.  [NewUserWithPassword]
    fails with [ErrorRequiredNewUserFields] on an empty password before
    it looks at anything else (whatever email and username are, and
    without calling bcrypt); with a password it reports an empty email or
    username the way [NewUser] does. *)
Theorem NewUser_required_fields
    (GenerateFromPassword : string -> nat -> result error string)
    (email username bio image password : string) :
  (NewUser email username bio image = Err ErrorRequiredUserFields
     <-> email = "" \/ username = "")
  /\ (email <> "" -> username <> "" ->
      NewUser email username bio image
        = Ok (mkUser email username bio image []))
  /\ NewUserWithPassword GenerateFromPassword email username ""
       = Err ErrorRequiredNewUserFields
  /\ (password <> "" -> email = "" \/ username = "" ->
      NewUserWithPassword GenerateFromPassword email username password
        = Err ErrorRequiredUserFields).
Proof.
  split; [apply NewUser_error|].
  split; [apply NewUser_ok|].
  split; [reflexivity|].
  intros Hp Hx. unfold NewUserWithPassword.
  apply is_empty_false in Hp. rewrite Hp.
  apply (NewUser_error email username "" "") in Hx. by rewrite Hx.
Qed.

(** Emails never change when a following list is replaced. *)
Lemma IsFollowing_loop_ext (h h' : heap) fs fu :
  (forall p, email <$> deref h' p = email <$> deref h p) ->
  IsFollowing_loop h' fs fu = IsFollowing_loop h fs fu.
Proof.
  intros Hh. induction fs as [|f fs IH]; simpl; [done|].
  pose proof (Hh f) as Hf. pose proof (Hh fu) as Hfu.
  destruct (deref h f) as [fv|], (deref h' f) as [fv'|];
    simpl in Hf; try discriminate; [|done].
  destruct (deref h fu) as [fuv|], (deref h' fu) as [fuv'|];
    simpl in Hfu; try discriminate; [|done].
  injection Hf as ->. injection Hfu as ->. by rewrite IH.
Qed.

Lemma IsFollowing_loop_total (h : heap) fs fu :
  Forall (valid h) fs -> valid h fu ->
  is_Some (IsFollowing_loop h fs fu).
Proof.
  intros Hfs [fuv Hfu]. induction Hfs as [|f fs [fv Hf] _ IH]; simpl; [eauto|].
  rewrite Hf, Hfu. destruct (String.eqb _ _); eauto.
Qed.

Lemma IsFollowing_loop_snoc (h : heap) fs fu :
  valid h fu ->
  IsFollowing_loop h fs fu = Some false ->
  IsFollowing_loop h (fs ++ [fu]) fu = Some true.
Proof.
  intros [fuv Hfu]. induction fs as [|f fs IH]; simpl.
  - intros _. by rewrite Hfu, String.eqb_refl.
  - destruct (deref h f) as [fv|]; [|done]. rewrite Hfu.
    destruct (String.eqb _ _); [done|]. apply IH.
Qed.

Lemma deref_set_following (h : heap) a uv fs p :
  h !! a = Some uv ->
  email <$> deref (<[a := set_following uv fs]> h) p = email <$> deref h p.
Proof.
  intros Ha. destruct p as [b|]; simpl; [|done].
  destruct (decide (a = b)) as [->|Hne].
  - by rewrite lookup_insert_eq, Ha.
  - by rewrite lookup_insert_ne.
Qed.

(** C10: for a user [u] and a user [fu] on the heap, [u.StartFollowing(fu)]
    returns; afterwards [u.IsFollowing(fu)] is true and a second call
    changes nothing; and when [u] followed [fu] already, the first call
    changes nothing either. *)
Theorem StartFollowing_idempotent (h : heap) (u fu : ptr) :
  valid_user h u -> valid h fu ->
  exists h',
    StartFollowing h u fu = Some h'
    /\ IsFollowing h' u fu = Some true
    /\ StartFollowing h' u fu = Some h'
    /\ (IsFollowing h u fu = Some true -> h' = h).
Proof.
  intros (uv & Hu & Hfs) Hfu.
  destruct (IsFollowing_loop_total h (following uv) fu Hfs Hfu) as [b Hb].
  assert (Hq : IsFollowing h u fu = Some b) by (unfold IsFollowing; by rewrite Hu).
  destruct b.
  - exists h. unfold StartFollowing. rewrite Hq. done.
  - destruct u as [a|]; [|done]. simpl in Hu.
    set (h' := <[a := set_following uv (following uv ++ [fu])]> h).
    assert (Hq' : IsFollowing h' (Some a) fu = Some true).
    { unfold IsFollowing, h'. simpl. rewrite lookup_insert_eq. simpl.
      rewrite (IsFollowing_loop_ext h); [by apply IsFollowing_loop_snoc|].
      intros p. by apply deref_set_following. }
    exists h'. unfold StartFollowing at 1. rewrite Hq. simpl. rewrite Hu.
    split; [done|]. split; [done|]. split; [|congruence].
    unfold StartFollowing. by rewrite Hq'.
Qed.

End UserDomain.

(** * Properties of the adapter *)

Import domain store postgres props.

(** ** Running the store monad

    The operations are straight-line code over a handful of store calls,
    each of which either fails, ending the run, or goes on.  The tactics
    below unfold a run call by call. *)

Ltac unfold_store :=
  unfold BeginTx, Commit, Rollback, defer, exec, query, bind, ret, emit,
    next_fault, nextval, get_tables, put_tables, fresh_tx in *.

Ltac run :=
  unfold UpdateFanboyByEmail, CreateUser, UpdateUserByEmail,
    GetAuthorByEmail, GetUserByEmail, getUserByEmail in *;
  unfold_store; simpl in *.

Ltac run_hyp H :=
  unfold UpdateFanboyByEmail, CreateUser, UpdateUserByEmail,
    GetAuthorByEmail, GetUserByEmail, getUserByEmail in H;
  unfold BeginTx, Commit, Rollback, defer, exec, query, bind, ret, emit,
    next_fault, nextval, get_tables, put_tables, fresh_tx in H;
  simpl in H.

Ltac cases := repeat (case_match; simplify_eq/=).

Ltac settle_trace :=
  unfold trace; simpl; rewrite <- ?app_assoc, ?drop_app_length; simpl.

Lemma calm_step (n : nat) (fs : list (option string)) :
  Forall (fun f => f = None) (take (S n) fs) ->
  pending fs = None /\ Forall (fun f => f = None) (take n (tail fs)).
Proof.
  destruct fs as [|f fs]; simpl.
  - by rewrite take_nil.
  - intros H. apply Forall_cons in H as [-> H]. done.
Qed.

Ltac calm_down H :=
  unfold calm in H; simpl in H;
  repeat (let E := fresh "Hcalm" in apply calm_step in H as [E H]).

(** Rewrite with what is known of the store's answers, as far as the
    run gets. *)
Ltac known :=
  repeat (progress (simpl;
    repeat match goal with
           | H : pending _ = None |- _ => rewrite H
           | H : _ = Done _ |- _ => rewrite H
           | H : _ = Failed _ |- _ => rewrite H
           end)).

Ltac shape :=
  settle_trace;
  repeat (progress (simpl; rewrite ?bool_decide_eq_true_2 by (done || lia))).

Ltac recall :=
  repeat match goal with
         | H : ?x = Done _, H' : context [?x] |- _ => rewrite H in H'
         | H : ?x = Failed _, H' : context [?x] |- _ => rewrite H in H'
         end.

Ltac no_rows :=
  match goal with
  | H : is_no_rows ?e = true |- _ => by destruct e
  end.

Ltac in_trace H :=
  set_unfold in H; destruct_or?; destruct_and?; recall; simplify_eq/=.

Ltac store_errors :=
  split;
  [ intros ? (? & ? & Hin); in_trace Hin; try done;
    unfold translated; simpl; cases; set_solver
  | intros [Hin|[(? & ? & Hin & Hne)|(? & Hin)]] ?; in_trace Hin;
    try done; try congruence;
    try (exfalso; apply Hne; no_rows) ].

(** Closed goals: decide them, or find the row in the table. *)
Ltac ground := first [ compute_done | by repeat constructor ].

(** ** Joins over keyed tables *)

Section Joins.

Lemma bind_nil_all {A B} (l : list A) (g : A -> list B) :
  (forall x, x ∈ l -> g x = []) -> l ≫= g = [].
Proof.
  induction l as [|a l IH]; intros Hg; [done|].
  rewrite bind_cons, Hg, IH; [done| |]; set_solver.
Qed.

(** In a table keyed by [key], only the row with key [k] contributes to
    a join on [k]. *)
Lemma bind_keyed {A B K} (key : A -> K) (k : K) (l : list A)
    (g : A -> list B) (x : A) :
  NoDup (key <$> l) ->
  (forall y, y ∈ l -> key y <> k -> g y = []) ->
  x ∈ l -> key x = k ->
  l ≫= g = g x.
Proof.
  induction l as [|a l IH]; intros Hnd Hg Hx Hk; [by apply elem_of_nil in Hx|].
  rewrite fmap_cons in Hnd. apply NoDup_cons in Hnd as [Ha Hnd].
  rewrite bind_cons. apply elem_of_cons in Hx as [->|Hx].
  - rewrite (bind_nil_all l g); [by rewrite app_nil_r|].
    intros y Hy. apply Hg; [set_solver|].
    intros Hyk. apply Ha. rewrite Hk, <- Hyk. by apply list_elem_of_fmap_2.
  - rewrite Hg, IH; [done|done| |done|done|set_solver|].
    + intros y Hy. apply Hg. set_solver.
    + intros Hak. apply Ha. rewrite Hak, <- Hk. by apply list_elem_of_fmap_2.
Qed.

Lemma user_rows_stored (T : Tables) (em : string) (v : User) :
  v ∈ sql.user_rows em T <-> stored_user T em v.
Proof.
  unfold sql.user_rows, stored_user. rewrite list_elem_of_bind. split.
  - intros (u & Hv & Hu). apply list_elem_of_bind in Hv as (p & Hv & Hp).
    case_bool_decide as Hc; [|by apply elem_of_nil in Hv].
    apply list_elem_of_singleton in Hv. destruct Hc. by exists u, p.
  - intros (u & p & Hu & Hp & He & Hi & ->). exists u. split; [|done].
    apply list_elem_of_bind. exists p. split; [|done].
    rewrite bool_decide_eq_true_2 by done. by apply list_elem_of_singleton.
Qed.

Lemma select_user_stored (T : Tables) (em : string) (v : User) :
  sql.select_user em T = Done v -> stored_user T em v.
Proof.
  unfold sql.select_user. intros H. apply user_rows_stored.
  destruct (sql.user_rows em T) as [|v' [|? ?]]; simplify_eq. set_solver.
Qed.

Lemma user_rows_keyed (T : Tables) (u : UserRow) (p : PasswordRow) :
  schema_ok T -> u ∈ users T -> p ∈ user_passwords T -> id u = pw_id p ->
  sql.user_rows (email u) T = [user_of u p].
Proof.
  intros (_ & Hem & _ & Hpw & _) Hu Hp Hi. unfold sql.user_rows.
  rewrite (bind_keyed email (email u) (users T) _ u); [|done| |done|done].
  - rewrite (bind_keyed pw_id (id u) (user_passwords T) _ p);
      [|done| |done|done].
    + by rewrite bool_decide_eq_true_2.
    + intros q _ Hq. rewrite bool_decide_eq_false_2; [done|]. intros []. congruence.
  - intros y _ Hy. apply bind_nil_all. intros q _.
    rewrite bool_decide_eq_false_2; [done|]. by intros [].
Qed.

Lemma select_user_keyed (T : Tables) (em : string) (v : User) :
  schema_ok T -> stored_user T em v -> sql.select_user em T = Done v.
Proof.
  intros Hok (u & p & Hu & Hp & <- & Hi & ->). unfold sql.select_user.
  by rewrite (user_rows_keyed T u p).
Qed.

Lemma select_user_none (T : Tables) (em : string) :
  (forall v, ~ stored_user T em v) -> sql.select_user em T = Failed ErrNoRows.
Proof.
  intros Hno. unfold sql.select_user.
  destruct (sql.user_rows em T) as [|v l] eqn:E; [done|].
  exfalso. apply (Hno v), user_rows_stored. rewrite E. set_solver.
Qed.

Lemma elem_of_nonempty_keys (m : gset string) (k : string) :
  k ∈ nonempty_keys m <-> k ∈ m /\ k <> "".
Proof.
  unfold nonempty_keys. rewrite list_elem_of_filter, elem_of_elements. tauto.
Qed.

Lemma elem_of_followed_rows em follows T (a b : Z) :
  (a, b) ∈ sql.followed_rows em follows T
  <-> exists u v, u ∈ users T /\ v ∈ users T /\ email u = em
                  /\ email v ∈ follows /\ a = id u /\ b = id v.
Proof.
  unfold sql.followed_rows. rewrite list_elem_of_bind. split.
  - intros (u & H & Hu). apply list_elem_of_bind in H as (v & H & Hv).
    case_bool_decide as Hc; [|by apply elem_of_nil in H].
    apply list_elem_of_singleton in H. destruct Hc. simplify_eq.
    by exists u, v.
  - intros (u & v & Hu & Hv & He & Hf & -> & ->). exists u. split; [|done].
    apply list_elem_of_bind. exists v. split; [|done].
    rewrite bool_decide_eq_true_2 by done. by apply list_elem_of_singleton.
Qed.

Lemma elem_of_favorited_rows em favors T (a b : Z) :
  (a, b) ∈ sql.favorited_rows em favors T
  <-> exists u x, u ∈ users T /\ x ∈ articles T /\ email u = em
                  /\ slug x ∈ favors /\ a = id u /\ b = article_id x.
Proof.
  unfold sql.favorited_rows. rewrite list_elem_of_bind. split.
  - intros (u & H & Hu). apply list_elem_of_bind in H as (v & H & Hv).
    case_bool_decide as Hc; [|by apply elem_of_nil in H].
    apply list_elem_of_singleton in H. destruct Hc. simplify_eq.
    by exists u, v.
  - intros (u & v & Hu & Hv & He & Hf & -> & ->). exists u. split; [|done].
    apply list_elem_of_bind. exists v. split; [|done].
    rewrite bool_decide_eq_true_2 by done. by apply list_elem_of_singleton.
Qed.

Lemma elem_of_select_follows em T l (x : string) :
  sql.select_follows em T = Done l ->
  x ∈ l <-> exists u v, u ∈ users T /\ v ∈ users T /\ email u = em
                        /\ (id u, id v) ∈ followed_users T /\ x = email v.
Proof.
  unfold sql.select_follows. intros [= <-]. rewrite list_elem_of_bind. split.
  - intros (u & H & Hu). apply list_elem_of_bind in H as ([a b] & H & Hfu).
    apply list_elem_of_bind in H as (v & H & Hv).
    case_bool_decide as Hc; [|by apply elem_of_nil in H].
    apply list_elem_of_singleton in H. destruct Hc as (? & ? & ?). simplify_eq/=.
    by exists u, v.
  - intros (u & v & Hu & Hv & He & Hf & ->). exists u. split; [|done].
    apply list_elem_of_bind. exists (id u, id v). split; [|done].
    apply list_elem_of_bind. exists v. split; [|done].
    rewrite bool_decide_eq_true_2 by done. by apply list_elem_of_singleton.
Qed.

Lemma elem_of_select_favorites em T l (x : string) :
  sql.select_favorites em T = Done l ->
  x ∈ l <-> exists u a, u ∈ users T /\ a ∈ articles T /\ email u = em
                  /\ (id u, article_id a) ∈ favorited_articles T /\ x = slug a.
Proof.
  unfold sql.select_favorites. intros [= <-]. rewrite list_elem_of_bind. split.
  - intros (u & H & Hu). apply list_elem_of_bind in H as ([a b] & H & Hfu).
    apply list_elem_of_bind in H as (v & H & Hv).
    case_bool_decide as Hc; [|by apply elem_of_nil in H].
    apply list_elem_of_singleton in H. destruct Hc as (? & ? & ?). simplify_eq/=.
    by exists u, v.
  - intros (u & v & Hu & Hv & He & Hf & ->). exists u. split; [|done].
    apply list_elem_of_bind. exists (id u, article_id v). split; [|done].
    apply list_elem_of_bind. exists v. split; [|done].
    rewrite bool_decide_eq_true_2 by done. by apply list_elem_of_singleton.
Qed.

Lemma elem_of_replaced_edges em T old new (a b : Z) :
  (a, b) ∈ replaced_edges em T old new
  <-> ((a, b) ∈ old /\ ~ exists u, u ∈ users T /\ email u = em /\ id u = a)
      \/ (a, b) ∈ new.
Proof.
  unfold replaced_edges.
  rewrite elem_of_app, list_elem_of_filter, Exists_exists. simpl.
  split.
  - intros [[Hn Ho]|Hi]; [left|by right]. split; [done|].
    intros (u & ? & ? & ?). apply Hn. by exists u.
  - intros [[Ho Hn]|Hi]; [left|by right]. split; [|done].
    intros (u & ? & ? & ?). apply Hn. by exists u.
Qed.

End Joins.

(** ** Users: CreateUser, GetAuthorByEmail, UpdateUserByEmail *)

Section Users.

(** C8: [GetAuthorByEmail] has no error to return.  It leaves the tables
    alone; when the store answers and holds a user with that email and
    its credential row, it returns that user; whatever it returns other
    than nil is such a user, found by a lookup that did not fail, and its
    [GetEmail] is the email asked for; so without such a user, or when
    the lookup fails, it returns nil. *)
Theorem GetAuthorByEmail_author_or_nil (em : string) (w : World) :
  tables (GetAuthorByEmail em w).1 = tables w
  /\ (forall v, schema_ok (tables w) -> stored_user (tables w) em v ->
                calm 1 w -> (GetAuthorByEmail em w).2 = Some v)
  /\ (forall v, (GetAuthorByEmail em w).2 = Some v ->
                stored_user (tables w) em v /\ calm 1 w
                /\ GetEmail v = em)
  /\ ((forall v, ~ stored_user (tables w) em v) ->
      (GetAuthorByEmail em w).2 = None)
  /\ (~ calm 1 w -> (GetAuthorByEmail em w).2 = None).
Proof.
  destruct w as [T sq fs ntx lg]. split_and!.
  - run. cases; done.
  - intros v Hok Hv Hcalm. apply select_user_keyed in Hv; [|done].
    calm_down Hcalm. run. known. done.
  - intros v. run. intros H.
    destruct (pending fs) eqn:Hp; simpl in *; [done|].
    destruct (sql.select_user em T) as [v'|e] eqn:Hs; simpl in *.
    + simplify_eq. pose proof (select_user_stored _ _ _ Hs) as Hst.
      split; [done|]. split.
      * unfold calm. simpl. destruct fs as [|[?|] ?]; simplify_eq/=;
          repeat constructor.
      * destruct Hst as (u & p & _ & _ & <- & _ & ->). done.
    + destruct (is_no_rows e); done.
  - intros Hno. apply select_user_none in Hno. run.
    destruct (pending fs); simpl; [done|]. rewrite Hno. done.
  - intros Hn. run. destruct (pending fs) eqn:Hp; simpl; [done|].
    exfalso. apply Hn. unfold calm. simpl.
    destruct fs as [|[?|] ?]; simplify_eq/=; repeat constructor.
Qed.

Lemma UpdateUserByEmail_transform_error (em : string)
    (update : transform User) (e : error) (w w1 w2 : World) (tx : Tx)
    (u : User) :
  BeginTx w = (w1, Done tx) ->
  getUserByEmail (InTx tx) em w1 = (w2, Ok u) ->
  (update u).2 = Some e ->
  exists w',
    UpdateUserByEmail em update w = (w', Err e)
    /\ tables w' = tables w
    /\ trace w w' = [EBegin (tx_id tx);
                     EStmt (Some (tx_id tx)) SelectUser None;
                     ERollback (tx_id tx)].
Proof.
  destruct w as [T sq fs ntx lg]. intros Hb Hl Hu.
  destruct (update u) as [o oe] eqn:Hupd. simpl in Hu. subst oe.
  run_hyp Hb. run_hyp Hl. cases. run. known. rewrite Hupd.
  destruct o; simpl; (eexists; split; [reflexivity|]; split; [done|]);
    settle_trace; done.
Qed.

Lemma UpdateUserByEmail_one_tx (em : string) (update : transform User)
    (w w' : World) (r : result error User) :
  UpdateUserByEmail em update w = (w', r) ->
  one_tx_protocol (trace w w') = true.
Proof.
  destruct w as [T sq fs ntx lg]. intros H. run. cases; shape; done.
Qed.

Lemma UpdateUserByEmail_not_found (em : string) (update : transform User)
    (w : World) :
  (forall v, ~ stored_user (tables w) em v) -> calm 2 w ->
  exists w',
    UpdateUserByEmail em update w = (w', Err ErrUserNotFound)
    /\ tables w' = tables w
    /\ trace w w' = [EBegin (next_tx w);
                     EStmt (Some (next_tx w)) SelectUser (Some ErrNoRows);
                     ERollback (next_tx w)].
Proof.
  intros Hno Hcalm. apply select_user_none in Hno.
  destruct w as [T sq fs ntx lg]. simpl in Hno. calm_down Hcalm.
  run. known. eexists. split; [reflexivity|]. settle_trace. done.
Qed.

Lemma CreateUser_errors (u : User) (w w' : World) (r : result error User)
    (e : error) :
  CreateUser u w = (w', r) ->
  (forall n, persist_error (trace w w') n e ->
     r = Err (translated e) /\ tables w' = tables w
     /\ ERollback n ∈ trace w w')
  /\ (store_failure (trace w w') e -> is_unique_violation e = false ->
      r = Err e).
Proof.
  destruct w as [T sq fs ntx lg]. intros H. run. cases; settle_trace.
  all: store_errors.
Qed.

Lemma UpdateUserByEmail_errors (em : string) (update : transform User)
    (w w' : World) (r : result error User) (e : error) :
  UpdateUserByEmail em update w = (w', r) ->
  (forall n, persist_error (trace w w') n e ->
     r = Err (translated e) /\ tables w' = tables w
     /\ ERollback n ∈ trace w w')
  /\ (store_failure (trace w w') e -> is_unique_violation e = false ->
      r = Err e).
Proof.
  destruct w as [T sq fs ntx lg]. intros H. run. cases; settle_trace.
  all: store_errors.
Qed.

(** When the store raises the unique violation. *)
Lemma insert_user_duplicate (new_id : Z) (u : User) (T : Tables) :
  (exists r, r ∈ users T
             /\ (email r = Email u \/ username r = Username u)) ->
  sql.insert_user new_id u T = Failed (PgError UniqueViolation).
Proof.
  intros (r & Hr & Hdup). unfold sql.insert_user.
  rewrite bool_decide_eq_true_2; [done|].
  apply Exists_exists. exists r. tauto.
Qed.

Lemma filter_length_pos {A} (P : A -> Prop) `{forall x, Decision (P x)}
    (l : list A) (x : A) :
  x ∈ l -> P x -> (0 < length (filter P l))%nat.
Proof.
  intros Hx HP. assert (Hin : x ∈ filter P l) by by apply list_elem_of_filter.
  destruct (filter P l); [by apply elem_of_nil in Hin|simpl; lia].
Qed.

Lemma filter_length_two {A} (P : A -> Prop) `{forall x, Decision (P x)}
    (l1 l2 : list A) (a b : A) :
  P a -> P b -> b ∈ l1 ++ l2 ->
  (1 < length (filter P (l1 ++ a :: l2)))%nat.
Proof.
  intros Ha Hb Hin. rewrite filter_app, filter_cons_True, length_app by done.
  simpl. apply elem_of_app in Hin as [Hin|Hin].
  - pose proof (filter_length_pos P l1 b Hin Hb). lia.
  - pose proof (filter_length_pos P l2 b Hin Hb). lia.
Qed.

Lemma update_user_duplicate (em : string) (u : User) (T : Tables) :
  (exists r0, r0 ∈ users T /\ email r0 = em) ->
  (exists r, r ∈ users T /\ email r <> em
             /\ (email r = Email u \/ username r = Username u)) ->
  sql.update_user em u T = Failed (PgError UniqueViolation).
Proof.
  intros (r0 & Hr0 & He0) (r & Hr & Hne & Hdup). unfold sql.update_user.
  destruct (filter _ (users T)) as [|r1 rest] eqn:Hf.
  { assert (Hin : r0 ∈ filter (fun r => email r = em) (users T))
      by by apply list_elem_of_filter.
    rewrite Hf in Hin. by apply elem_of_nil in Hin. }
  rewrite bool_decide_eq_true_2; [done|].
  fold (rekeyed em u).
  apply list_elem_of_split in Hr as (l1 & l2 & Hl).
  assert (Hr0' : r0 ∈ l1 ++ l2).
  { rewrite Hl in Hr0. set_unfold in Hr0. set_unfold.
    destruct Hr0 as [?|[->|?]]; [tauto|congruence|tauto]. }
  assert (Hk : rekeyed em u r = r)
    by (unfold rekeyed; by rewrite bool_decide_eq_false_2).
  assert (Hk0 : rekeyed em u r0
                = mkUserRow (id r0) (Email u) (Username u) (Bio u) (Image u))
    by (unfold rekeyed; by rewrite bool_decide_eq_true_2).
  rewrite Hl, fmap_app, fmap_cons, Hk.
  assert (Hin : rekeyed em u r0 ∈ (rekeyed em u <$> l1) ++ (rekeyed em u <$> l2)).
  { rewrite <- fmap_app. by apply list_elem_of_fmap_2. }
  destruct Hdup as [Hd|Hd]; [left|right];
    apply (filter_length_two _ _ _ r (rekeyed em u r0)); try done;
    by rewrite Hk0.
Qed.

Lemma CreateUser_duplicate (u : User) (w : World) :
  calm 2 w ->
  (exists r, r ∈ users (tables w)
             /\ (email r = Email u \/ username r = Username u)) ->
  exists w',
    CreateUser u w = (w', Err ErrDuplicateUser)
    /\ tables w' = tables w
    /\ trace w w' = [EBegin (next_tx w);
                     EStmt (Some (next_tx w)) InsertUser
                           (Some (PgError UniqueViolation));
                     ERollback (next_tx w)].
Proof.
  destruct w as [T sq fs ntx lg]. intros Hcalm Hdup. simpl in Hdup.
  apply (insert_user_duplicate sq) in Hdup. calm_down Hcalm.
  run. known. eexists. split; [reflexivity|]. settle_trace. done.
Qed.

Lemma UpdateUserByEmail_duplicate (em : string) (update : transform User)
    (w : World) (u0 u : User) :
  calm 3 w ->
  sql.select_user em (tables w) = Done u0 ->
  update u0 = (Some u, None) ->
  (exists r, r ∈ users (tables w) /\ email r <> em
             /\ (email r = Email u \/ username r = Username u)) ->
  exists w',
    UpdateUserByEmail em update w = (w', Err ErrDuplicateUser)
    /\ tables w' = tables w
    /\ trace w w' = [EBegin (next_tx w);
                     EStmt (Some (next_tx w)) SelectUser None;
                     EStmt (Some (next_tx w)) UpdateUser
                           (Some (PgError UniqueViolation));
                     ERollback (next_tx w)].
Proof.
  destruct w as [T sq fs ntx lg]. intros Hcalm Hsel Hupd Hdup.
  simpl in Hsel, Hdup.
  assert (Hex : exists r0, r0 ∈ users T /\ email r0 = em).
  { apply select_user_stored in Hsel as (r0 & ? & ? & ? & ? & ?). eauto. }
  pose proof (update_user_duplicate em u T Hex Hdup) as Hviol.
  calm_down Hcalm. run. known. rewrite Hupd. known.
  eexists. split; [reflexivity|]. settle_trace. done.
Qed.

Lemma reported_translated (w w' : World) (r : result error User) (e : error) :
  (forall n, persist_error (trace w w') n e ->
     r = Err (translated e) /\ tables w' = tables w
     /\ ERollback n ∈ trace w w')
  /\ (store_failure (trace w w') e -> is_unique_violation e = false ->
      r = Err e) ->
  reported w w' r e.
Proof.
  intros [Hp Hs]. split; [|done].
  intros n Hn. destruct (Hp n Hn) as (-> & HT & Hrb).
  unfold translated. split_and!; try done; by intros ->.
Qed.

(** C3: in a run of [CreateUser] or [UpdateUserByEmail], an error [e] of a
    statement of the persist step is returned as [ErrDuplicateUser] when
    it is a unique violation and as [e] itself otherwise, the committed
    tables are what they were, and the transaction is rolled back (in
    [CreateUser] the row of the user and the row of the credential go
    together); and every failure of the store that is not a unique
    violation, wherever it strikes, is returned as it is. *)
Theorem unique_violation_is_duplicate_user (w : World) (e : error) :
  (forall u w' r, CreateUser u w = (w', r) -> reported w w' r e)
  /\ (forall em update w' r,
        UpdateUserByEmail em update w = (w', r) -> reported w w' r e)
  /\ (forall u,
        calm 2 w ->
        (exists row, row ∈ users (tables w)
           /\ (email row = Email u \/ username row = Username u)) ->
        exists w',
          CreateUser u w = (w', Err ErrDuplicateUser)
          /\ tables w' = tables w
          /\ trace w w' = [EBegin (next_tx w);
                           EStmt (Some (next_tx w)) InsertUser
                                 (Some (PgError UniqueViolation));
                           ERollback (next_tx w)])
  /\ (forall em update u0 u,
        calm 3 w ->
        sql.select_user em (tables w) = Done u0 ->
        update u0 = (Some u, None) ->
        (exists row, row ∈ users (tables w) /\ email row <> em
           /\ (email row = Email u \/ username row = Username u)) ->
        exists w',
          UpdateUserByEmail em update w = (w', Err ErrDuplicateUser)
          /\ tables w' = tables w
          /\ trace w w' = [EBegin (next_tx w);
                           EStmt (Some (next_tx w)) SelectUser None;
                           EStmt (Some (next_tx w)) UpdateUser
                                 (Some (PgError UniqueViolation));
                           ERollback (next_tx w)]).
Proof.
  split_and!.
  - intros u w' r H. apply reported_translated.
    exact (CreateUser_errors u w w' r e H).
  - intros em update w' r H. apply reported_translated.
    exact (UpdateUserByEmail_errors em update w w' r e H).
  - intros u. apply CreateUser_duplicate.
  - intros em update u0 u. apply UpdateUserByEmail_duplicate.
Qed.

Lemma UpdateUserByEmail_done (em : string) (update : transform User)
    (w w' : World) (v : User) :
  UpdateUserByEmail em update w = (w', Ok v) ->
  exists u0 u T1 uid,
    sql.select_user em (tables w) = Done u0
    /\ update u0 = (Some u, None)
    /\ sql.update_user em u (tables w) = Done (T1, uid)
    /\ tables w' = set_user_passwords T1
                     (rehashed uid (Password u) <$> user_passwords T1)
    /\ sql.select_user (Email u) (tables w') = Done v
    /\ trace w w' = [EBegin (next_tx w);
                     EStmt (Some (next_tx w)) SelectUser None;
                     EStmt (Some (next_tx w)) UpdateUser None;
                     EStmt (Some (next_tx w)) UpdatePassword None;
                     ECommit (next_tx w) None;
                     EStmt None SelectUser None].
Proof.
  destruct w as [T sq fs ntx lg]. intros H. run. cases; settle_trace.
  all: eexists _, _, _, _; split_and!; eauto.
Qed.

Lemma at_most_one {A} (l : list A) (x y : A) :
  (length l <= 1)%nat -> x ∈ l -> y ∈ l -> x = y.
Proof.
  destruct l as [|a [|b l]]; simpl; intros Hl Hx Hy.
  - by apply elem_of_nil in Hx.
  - apply list_elem_of_singleton in Hx, Hy. congruence.
  - lia.
Qed.

Lemma update_user_done (em : string) (u : User) (T T1 : Tables) (uid : Z) :
  sql.update_user em u T = Done (T1, uid) ->
  T1 = set_users T (rekeyed em u <$> users T)
  /\ (exists r0, r0 ∈ users T /\ email r0 = em /\ id r0 = uid)
  /\ (length (filter (fun r => email r = Email u)
                     (rekeyed em u <$> users T)) <= 1)%nat.
Proof.
  unfold sql.update_user. fold (rekeyed em u).
  destruct (filter _ (users T)) as [|r0 rest] eqn:Hf; [done|].
  case_bool_decide as Hc; [done|]. intros [= <- <-].
  split; [done|]. split; [|lia].
  assert (Hin : r0 ∈ filter (fun r => email r = em) (users T))
    by (rewrite Hf; set_solver).
  apply list_elem_of_filter in Hin as [? ?]. by exists r0.
Qed.

(** The user read back under the new email is the transformed one. *)
Lemma reread_is_transformed (em : string) (u v : User) (T T1 : Tables)
    (uid : Z) :
  sql.update_user em u T = Done (T1, uid) ->
  sql.select_user (Email u)
    (set_user_passwords T1 (rehashed uid (Password u) <$> user_passwords T1))
    = Done v ->
  v = u.
Proof.
  intros Hupd Hsel.
  apply update_user_done in Hupd as (-> & (r0 & Hr0 & He0 & Hi0) & Hone).
  apply select_user_stored in Hsel as (r & p & Hr & Hp & He & Hi & ->).
  simpl in Hr, Hp.
  assert (Hk0 : rekeyed em u r0
                = mkUserRow uid (Email u) (Username u) (Bio u) (Image u))
    by (unfold rekeyed; rewrite bool_decide_eq_true_2 by done; by rewrite Hi0).
  assert (Hr' : r = rekeyed em u r0).
  { apply (at_most_one _ _ _ Hone).
    - by apply list_elem_of_filter.
    - apply list_elem_of_filter. split; [by rewrite Hk0|].
      by apply list_elem_of_fmap_2. }
  rewrite Hk0 in Hr'. subst r. simpl in Hi.
  apply list_elem_of_fmap in Hp as (q & -> & Hq).
  unfold rehashed in *. case_bool_decide as Hc; simpl in Hi; [|congruence].
  unfold user_of. simpl. by destruct u.
Qed.

(** C4: a run of [UpdateUserByEmail em update] that succeeds has loaded the
    user [u0] stored under [em] and got [u] from the transform; the rows
    of [users] that had the email [em] now carry the attributes of [u],
    its email included, under the id they had, and no other row has
    changed; and after the commit the user is read again on the pool
    under the email of [u]: what is returned is that user, which is
    [u]. *)
Theorem UpdateUserByEmail_rekeys (em : string) (update : transform User)
    (w w' : World) (v : User) :
  UpdateUserByEmail em update w = (w', Ok v) ->
  exists u0 u,
    sql.select_user em (tables w) = Done u0
    /\ update u0 = (Some u, None)
    /\ users (tables w') = rekeyed em u <$> users (tables w)
    /\ sql.select_user (Email u) (tables w') = Done v
    /\ v = u
    /\ trace w w' = [EBegin (next_tx w);
                     EStmt (Some (next_tx w)) SelectUser None;
                     EStmt (Some (next_tx w)) UpdateUser None;
                     EStmt (Some (next_tx w)) UpdatePassword None;
                     ECommit (next_tx w) None;
                     EStmt None SelectUser None].
Proof.
  intros H.
  apply UpdateUserByEmail_done in H
    as (u0 & u & T1 & uid & Hsel & Hupd & Hrow & HT & Hre & Htr).
  exists u0, u. split_and!; try done.
  - rewrite HT. simpl. by apply update_user_done in Hrow as (-> & _).
  - rewrite HT in Hre. by eapply reread_is_transformed.
Qed.

End Users.

(** ** Fanboys: GetUserByEmail, UpdateFanboyByEmail *)

Section Fanboys.
Variable ToLower : string -> string.

Lemma GetUserByEmail_found (em : string) (w w' : World) (f : Fanboy) :
  GetUserByEmail ToLower em w = (w', Ok f) ->
  exists follows favors c,
    sql.select_user em (tables w) = Done (Fanboy_User f)
    /\ sql.select_follows em (tables w) = Done follows
    /\ sql.select_favorites em (tables w) = Done favors
    /\ Following f = list_to_set (ToLower <$> follows)
    /\ Favorites f = list_to_set (ToLower <$> favors)
    /\ tables w' = tables w
    /\ next_tx w' = S (next_tx w)
    /\ trace w w' = [EBegin (next_tx w);
                     EStmt (Some (next_tx w)) SelectUser None;
                     EStmt (Some (next_tx w)) SelectFollows None;
                     EStmt (Some (next_tx w)) SelectFavorites None;
                     ECommit (next_tx w) c].
Proof.
  destruct w as [T sq fs ntx lg]. intros H. run. cases; settle_trace.
  all: eexists _, _, _; split_and!; eauto.
Qed.

Lemma GetUserByEmail_total (em : string) (w : World) (v : User) :
  schema_ok (tables w) -> stored_user (tables w) em v -> calm 4 w ->
  exists w' f, GetUserByEmail ToLower em w = (w', Ok f) /\ Fanboy_User f = v.
Proof.
  destruct w as [T sq fs ntx lg]. intros Hok Hv Hcalm. simpl in *.
  apply select_user_keyed in Hv; [|done].
  calm_down Hcalm. run. known. cases; eauto.
Qed.

(** C7: for the email of a stored user, when the store answers,
    [GetUserByEmail] returns the Fanboy of that user: its [Following] is
    exactly the set of the lower-cased emails of the users this user
    follows, its [Favorites] exactly the set of the lower-cased slugs of
    the articles this user has favorited, and the three reads run inside
    one transaction, begun before them and committed after them. *)
Theorem GetUserByEmail_derived_sets (em : string) (w : World) (v : User) :
  schema_ok (tables w) -> stored_user (tables w) em v -> calm 4 w ->
  exists w' f c,
    GetUserByEmail ToLower em w = (w', Ok f)
    /\ Fanboy_User f = v
    /\ (forall x, x ∈ Following f <->
          exists u t, u ∈ users (tables w) /\ t ∈ users (tables w)
            /\ email u = em
            /\ (id u, id t) ∈ followed_users (tables w)
            /\ x = ToLower (email t))
    /\ (forall x, x ∈ Favorites f <->
          exists u a, u ∈ users (tables w) /\ a ∈ articles (tables w)
            /\ email u = em
            /\ (id u, article_id a) ∈ favorited_articles (tables w)
            /\ x = ToLower (slug a))
    /\ trace w w' = [EBegin (next_tx w);
                     EStmt (Some (next_tx w)) SelectUser None;
                     EStmt (Some (next_tx w)) SelectFollows None;
                     EStmt (Some (next_tx w)) SelectFavorites None;
                     ECommit (next_tx w) c].
Proof.
  intros Hok Hv Hcalm.
  destruct (GetUserByEmail_total em w v Hok Hv Hcalm) as (w' & f & Hrun & Hf).
  destruct (GetUserByEmail_found em w w' f Hrun)
    as (follows & favors & c & _ & Hfo & Hfa & HFo & HFa & _ & _ & Htr).
  exists w', f, c. split_and!; [done|done| | |done].
  - intros x. rewrite HFo, elem_of_list_to_set, list_elem_of_fmap. split.
    + intros (e & -> & He).
      apply (elem_of_select_follows _ _ _ _ Hfo) in He
        as (u & t & ? & ? & ? & ? & ->).
      by exists u, t.
    + intros (u & t & ? & ? & ? & ? & ->). exists (email t). split; [done|].
      apply (elem_of_select_follows _ _ _ _ Hfo). by exists u, t.
  - intros x. rewrite HFa, elem_of_list_to_set, list_elem_of_fmap. split.
    + intros (e & -> & He).
      apply (elem_of_select_favorites _ _ _ _ Hfa) in He
        as (u & t & ? & ? & ? & ? & ->).
      by exists u, t.
    + intros (u & t & ? & ? & ? & ? & ->). exists (slug t). split; [done|].
      apply (elem_of_select_favorites _ _ _ _ Hfa). by exists u, t.
Qed.

(** What a run of GetUserByEmail leaves behind, whatever it returns. *)
Lemma GetUserByEmail_frame (em : string) (w : World) :
  tables (GetUserByEmail ToLower em w).1 = tables w
  /\ users_id_seq (GetUserByEmail ToLower em w).1 = users_id_seq w
  /\ exists l : list Event, log (GetUserByEmail ToLower em w).1 = (log w ++ l)%list
      /\ (forall c s r, EStmt c s r ∈ l -> is_write s = false)
      /\ match l with
         | [EBeginFailed _] => True
         | EBegin n :: l' => n = next_tx w /\ reads_then_commit n l' = Some []
         | _ => False
         end.
Proof.
  destruct w as [T sq fs ntx lg]. run. cases.
  all: split; [done|]; split; [done|]; rewrite <- ?app_assoc; simpl.
  all: eexists; split; [reflexivity|].
  all: split; [intros ? ? ? Hin; set_unfold in Hin; destruct_or?;
               simplify_eq/=; done|].
  all: simpl; rewrite ?bool_decide_eq_true_2 by done; done.
Qed.

Lemma UpdateFanboyByEmail_done (em : string) (update : transform Fanboy)
    (w w' : World) :
  UpdateFanboyByEmail ToLower em update w = (w', Ok tt) ->
  exists w1 f0 f,
    GetUserByEmail ToLower em w = (w1, Ok f0)
    /\ update f0 = (Some f, None)
    /\ tables w' =
        mkTables (users (tables w)) (user_passwords (tables w))
          (replaced_edges em (tables w) (followed_users (tables w))
             (sql.followed_rows em (nonempty_keys (Following f)) (tables w)))
          (articles (tables w))
          (replaced_edges em (tables w) (favorited_articles (tables w))
             (sql.favorited_rows em (nonempty_keys (Favorites f)) (tables w))).
Proof.
  unfold UpdateFanboyByEmail. unfold bind at 1.
  destruct (GetUserByEmail ToLower em w) as [w1 r] eqn:Hget.
  pose proof (GetUserByEmail_frame em w) as (HT & _). rewrite Hget in HT.
  simpl in HT. destruct r as [f0| |]; [|done|done].
  destruct (update f0) as [[f|] [e|]] eqn:Hupd; try done.
  - intros H. exists w1, f0, f. split; [done|]. split; [done|].
    clear Hget. destruct w1 as [T1 sq fs ntx lg]. simpl in HT. subst T1.
    unfold_store. simpl in H. cases. done.
  - intros H. exfalso. clear Hget. destruct w1 as [T1 sq fs ntx lg].
    unfold_store. simpl in H. cases.
Qed.

(** C1: a call of [UpdateFanboyByEmail] that succeeds has loaded a Fanboy
    [f0] and got [f] from the transform, and it leaves in the two edge
    tables exactly this: the edges of other users as they were, none of
    the former edges of this user, and for this user one edge to every
    existing user whose email is a non-empty key of [Following f], and
    one to every existing article whose slug is a non-empty key of
    [Favorites f].  Empty keys and keys that name nothing leave no
    edge. *)
Theorem UpdateFanboyByEmail_full_replace (em : string)
    (update : transform Fanboy) (w w' : World) :
  UpdateFanboyByEmail ToLower em update w = (w', Ok tt) ->
  exists w1 f0 f,
    GetUserByEmail ToLower em w = (w1, Ok f0)
    /\ update f0 = (Some f, None)
    /\ (forall a b, (a, b) ∈ followed_users (tables w') <->
          ((a, b) ∈ followed_users (tables w)
           /\ ~ exists u, u ∈ users (tables w) /\ email u = em /\ id u = a)
          \/ exists u t, u ∈ users (tables w) /\ t ∈ users (tables w)
               /\ email u = em /\ a = id u /\ b = id t
               /\ email t ∈ Following f /\ email t <> "")
    /\ (forall a b, (a, b) ∈ favorited_articles (tables w') <->
          ((a, b) ∈ favorited_articles (tables w)
           /\ ~ exists u, u ∈ users (tables w) /\ email u = em /\ id u = a)
          \/ exists u x, u ∈ users (tables w) /\ x ∈ articles (tables w)
               /\ email u = em /\ a = id u /\ b = article_id x
               /\ slug x ∈ Favorites f /\ slug x <> "").
Proof.
  intros H. apply UpdateFanboyByEmail_done in H as (w1 & f0 & f & Hget & Hupd & ->).
  exists w1, f0, f. split; [done|]. split; [done|]. simpl. split.
  - intros a b. rewrite elem_of_replaced_edges, elem_of_followed_rows.
    apply or_iff_compat_l. split.
    + intros (u & t & ? & ? & ? & Hk & ? & ?).
      apply elem_of_nonempty_keys in Hk as [? ?]. by exists u, t.
    + intros (u & t & ? & ? & ? & ? & ? & ? & ?). exists u, t.
      rewrite elem_of_nonempty_keys. done.
  - intros a b. rewrite elem_of_replaced_edges, elem_of_favorited_rows.
    apply or_iff_compat_l. split.
    + intros (u & t & ? & ? & ? & Hk & ? & ?).
      apply elem_of_nonempty_keys in Hk as [? ?]. by exists u, t.
    + intros (u & t & ? & ? & ? & ? & ? & ? & ?). exists u, t.
      rewrite elem_of_nonempty_keys. done.
Qed.

Lemma UpdateFanboyByEmail_writes (em : string) (update : transform Fanboy)
    (w w' : World) (r : result error unit) :
  UpdateFanboyByEmail ToLower em update w = (w', r) ->
  users (tables w') = users (tables w)
  /\ user_passwords (tables w') = user_passwords (tables w)
  /\ articles (tables w') = articles (tables w)
  /\ forall c s o,
       EStmt c s o ∈ trace w w' -> is_write s = true ->
       s ∈ [DeleteFollows; DeleteFavorites; InsertFollows; InsertFavorites].
Proof.
  unfold UpdateFanboyByEmail. unfold bind at 1.
  destruct (GetUserByEmail_frame em w) as (HT & _ & l & Hl & Hreads & _).
  destruct (GetUserByEmail ToLower em w) as [w1 r1]. simpl in HT, Hl.
  destruct w1 as [T1 sq fs ntx lg]. simpl in HT, Hl. subst T1 lg.
  intros H. unfold_store. simpl in H. cases.
  all: split_and!; try done.
  all: intros ? ? ?; unfold trace; simpl;
    rewrite <- ?app_assoc, ?drop_app_length; simpl;
    intros Hin Hw; try apply elem_of_app in Hin as [Hin|Hin];
    try (apply Hreads in Hin; congruence).
  all: set_unfold in Hin; destruct_or?; simplify_eq/=; set_solver.
Qed.

(** C6: whatever the transform does and however the call ends,
    [UpdateFanboyByEmail] leaves the rows of [users] and of
    [user_passwords] as they were, and the only statements it writes with
    are the two deletes and the two inserts on the edge tables. *)
Theorem UpdateFanboyByEmail_keeps_users (em : string)
    (update : transform Fanboy) (w : World) :
  users (tables (UpdateFanboyByEmail ToLower em update w).1)
    = users (tables w)
  /\ user_passwords (tables (UpdateFanboyByEmail ToLower em update w).1)
      = user_passwords (tables w)
  /\ forall c s o,
       EStmt c s o ∈ trace w (UpdateFanboyByEmail ToLower em update w).1 ->
       is_write s = true ->
       s ∈ [DeleteFollows; DeleteFavorites; InsertFollows; InsertFavorites].
Proof.
  destruct (UpdateFanboyByEmail ToLower em update w) as [w' r] eqn:H.
  apply UpdateFanboyByEmail_writes in H as (? & ? & ? & ?). done.
Qed.

Lemma UpdateFanboyByEmail_transform_error (em : string)
    (update : transform Fanboy) (e : error) (w w1 : World) (f : Fanboy) :
  GetUserByEmail ToLower em w = (w1, Ok f) ->
  (update f).2 = Some e ->
  UpdateFanboyByEmail ToLower em update w = (w1, Err e)
  /\ tables w1 = tables w
  /\ exists c,
      trace w w1 = [EBegin (next_tx w);
                    EStmt (Some (next_tx w)) SelectUser None;
                    EStmt (Some (next_tx w)) SelectFollows None;
                    EStmt (Some (next_tx w)) SelectFavorites None;
                    ECommit (next_tx w) c].
Proof.
  intros Hget Hu.
  destruct (GetUserByEmail_found em w w1 f Hget)
    as (_ & _ & c & _ & _ & _ & _ & _ & HT & _ & Htr).
  unfold UpdateFanboyByEmail. unfold bind at 1. rewrite Hget.
  destruct (update f) as [o oe]. simpl in Hu. subst oe.
  split; [by destruct o|]. split; [done|]. by exists c.
Qed.

(** C2: when the transform is handed the loaded aggregate and returns the
    error [e], [UpdateUserByEmail] rolls its transaction back and returns
    [e]; [UpdateFanboyByEmail], which has no transaction open at that
    point, returns [e]; in both the committed tables are what they were
    and no statement has written. *)
Theorem transform_error_verbatim (em : string) (e : error) (w : World) :
  (forall (update : transform User) w1 w2 tx u,
      BeginTx w = (w1, Done tx) ->
      getUserByEmail (InTx tx) em w1 = (w2, Ok u) ->
      (update u).2 = Some e ->
      exists w',
        UpdateUserByEmail em update w = (w', Err e)
        /\ tables w' = tables w
        /\ trace w w' = [EBegin (tx_id tx);
                         EStmt (Some (tx_id tx)) SelectUser None;
                         ERollback (tx_id tx)])
  /\ (forall (update : transform Fanboy) w1 f,
      GetUserByEmail ToLower em w = (w1, Ok f) ->
      (update f).2 = Some e ->
      UpdateFanboyByEmail ToLower em update w = (w1, Err e)
      /\ tables w1 = tables w
      /\ exists c,
          trace w w1 = [EBegin (next_tx w);
                        EStmt (Some (next_tx w)) SelectUser None;
                        EStmt (Some (next_tx w)) SelectFollows None;
                        EStmt (Some (next_tx w)) SelectFavorites None;
                        ECommit (next_tx w) c]).
Proof.
  split.
  - intros update w1 w2 tx u Hb Hl Hu.
    by apply (UpdateUserByEmail_transform_error em update e w w1 w2 tx u).
  - intros update w1 f Hg Hu.
    by apply (UpdateFanboyByEmail_transform_error em update e w w1 f).
Qed.

Lemma reads_then_commit_app n l rest :
  reads_then_commit n l = Some [] ->
  reads_then_commit n (l ++ rest) = Some rest.
Proof.
  induction l as [|ev l IH]; simpl; [done|].
  destruct ev as [| |[m|] s o|m o|]; try done.
  - destruct (bool_decide (m = n) && negb (is_write s)); [apply IH|done].
  - destruct (bool_decide (m = n)); [|done]. by intros [= ->].
Qed.

Lemma UpdateFanboyByEmail_two_tx (em : string) (update : transform Fanboy)
    (w w' : World) (r : result error unit) :
  UpdateFanboyByEmail ToLower em update w = (w', r) ->
  two_tx_protocol (trace w w') = true.
Proof.
  unfold UpdateFanboyByEmail. unfold bind at 1.
  destruct (GetUserByEmail_frame em w) as (HT & _ & l & Hl & _ & Hshape).
  pose proof (GetUserByEmail_found em w) as Hfound.
  destruct (GetUserByEmail ToLower em w) as [w1 r1]. simpl in HT, Hl.
  destruct r1 as [f0| |].
  - destruct (Hfound w1 f0 eq_refl)
      as (_ & _ & c & _ & _ & _ & _ & _ & _ & Hn & Htr).
    unfold trace in Htr. rewrite Hl, drop_app_length in Htr. subst l.
    clear Hfound Hshape.
    destruct w as [T sq0 fs0 ntx0 lg0].
    destruct w1 as [T1 sq fs ntx lg]. simpl in *. subst T1 lg ntx.
    intros H. unfold_store. simpl in H. cases; shape; done.
  - intros [= <- <-]. unfold trace. rewrite Hl, drop_app_length.
    destruct l as [|[n| | | |] l']; try done.
    + destruct Hshape as [-> Hs]. simpl. by rewrite Hs.
    + by destruct l'.
  - intros [= <- <-]. unfold trace. rewrite Hl, drop_app_length.
    destruct l as [|[n| | | |] l']; try done.
    + destruct Hshape as [-> Hs]. simpl. by rewrite Hs.
    + by destruct l'.
Qed.

Lemma UpdateFanboyByEmail_not_found (em : string)
    (update : transform Fanboy) (w : World) :
  (forall v, ~ stored_user (tables w) em v) -> calm 2 w ->
  exists w' c,
    UpdateFanboyByEmail ToLower em update w = (w', Err ErrUserNotFound)
    /\ tables w' = tables w
    /\ trace w w' = [EBegin (next_tx w);
                     EStmt (Some (next_tx w)) SelectUser (Some ErrNoRows);
                     ECommit (next_tx w) c].
Proof.
  intros Hno Hcalm. apply select_user_none in Hno.
  destruct w as [T sq fs ntx lg]. simpl in Hno. calm_down Hcalm.
  run. known. cases; (eexists _, _; split; [reflexivity|]); settle_trace; done.
Qed.

(** C5, as far as it holds: a run of [UpdateUserByEmail] begins a transaction, loads
    the user inside it and persists inside the same transaction; when no
    such user is stored the load fails with [ErrUserNotFound], the
    transaction is rolled back and the tables are what they were.  A run
    of [UpdateFanboyByEmail] loads in a read-only transaction of its own,
    which has ended before the persist begins in a second transaction;
    when no such user is stored it returns [ErrUserNotFound] with the
    tables as they were. *)
Theorem load_and_persist_transactions (em : string)
    (updU : transform User) (updF : transform Fanboy) (w : World) :
  one_tx_protocol (trace w (UpdateUserByEmail em updU w).1) = true
  /\ two_tx_protocol (trace w (UpdateFanboyByEmail ToLower em updF w).1) = true
  /\ ((forall v, ~ stored_user (tables w) em v) -> calm 2 w ->
      exists w',
        UpdateUserByEmail em updU w = (w', Err ErrUserNotFound)
        /\ tables w' = tables w
        /\ trace w w' = [EBegin (next_tx w);
                         EStmt (Some (next_tx w)) SelectUser (Some ErrNoRows);
                         ERollback (next_tx w)])
  /\ ((forall v, ~ stored_user (tables w) em v) -> calm 2 w ->
      exists w' c,
        UpdateFanboyByEmail ToLower em updF w = (w', Err ErrUserNotFound)
        /\ tables w' = tables w
        /\ trace w w' = [EBegin (next_tx w);
                         EStmt (Some (next_tx w)) SelectUser (Some ErrNoRows);
                         ECommit (next_tx w) c]).
Proof.
  split_and!.
  - destruct (UpdateUserByEmail em updU w) as [w' r] eqn:H.
    by apply UpdateUserByEmail_one_tx in H.
  - destruct (UpdateFanboyByEmail ToLower em updF w) as [w' r] eqn:H.
    by apply UpdateFanboyByEmail_two_tx in H.
  - apply UpdateUserByEmail_not_found.
  - apply UpdateFanboyByEmail_not_found.
Qed.

End Fanboys.

(** ** The constraints of the schema are kept *)

Section Schema.

Lemma NoDup_snoc_fresh {A} (l : list A) (x : A) :
  NoDup l -> x ∉ l -> NoDup (l ++ [x]).
Proof.
  intros Hl Hx. apply NoDup_app. split; [done|]. split.
  - intros y Hy Hy'. apply list_elem_of_singleton in Hy'. by subst.
  - apply NoDup_singleton.
Qed.

(** Rows picked by [sel] are rewritten to carry the key [k']; when at
    most one row carries [k'] afterwards, the key is still a key. *)
Lemma NoDup_fmap_update {A K} (key : A -> K) (sel : A -> Prop)
    `{!EqDecision K} `{!forall x, Decision (sel x)}
    (f : A -> A) (k' : K) (l : list A) :
  NoDup (key <$> l) ->
  (forall x, ~ sel x -> f x = x) ->
  (forall x, sel x -> key (f x) = k') ->
  (length (filter (fun x => key x = k') (f <$> l)) <= 1)%nat ->
  NoDup (key <$> (f <$> l)).
Proof.
  intros Hnd Hkeep Hset. induction l as [|a l IH]; intros Hone; [constructor|].
  rewrite !fmap_cons in *. apply NoDup_cons in Hnd as [Ha Hnd].
  assert (Htail : (length (filter (fun x => key x = k') (f <$> l)) <= 1)%nat).
  { destruct (decide (key (f a) = k')).
    - rewrite filter_cons_True in Hone by done. simpl in Hone. lia.
    - by rewrite filter_cons_False in Hone. }
  apply NoDup_cons. split; [|by apply IH].
  intros Hin. apply list_elem_of_fmap in Hin as (y' & Hky & Hy').
  apply list_elem_of_fmap in Hy' as (y & -> & Hy).
  assert (Hboth : key (f a) = k' -> False).
  { intros Hk. rewrite filter_cons_True in Hone by done. simpl in Hone.
    assert (0 < length (filter (fun x => key x = k') (f <$> l)))%nat; [|lia].
    apply (filter_length_pos _ _ (f y)); [by apply list_elem_of_fmap_2|].
    congruence. }
  destruct (decide (sel a)) as [Hs|Hs]; [by apply Hboth, Hset|].
  rewrite (Hkeep a Hs) in *.
  destruct (decide (sel y)) as [Hsy|Hsy].
  - apply Hboth. rewrite Hky. by apply Hset.
  - rewrite (Hkeep y Hsy) in Hky. apply Ha. rewrite Hky.
    by apply list_elem_of_fmap_2.
Qed.

Lemma insert_user_schema_ok (new_id : Z) (u : User) (T T1 : Tables) (uid : Z) :
  schema_ok T ->
  sql.insert_user new_id u T = Done (T1, uid) ->
  schema_ok (set_user_passwords T1
               (user_passwords T1 ++ [mkPasswordRow uid (Password u)])).
Proof.
  intros (Hid & Hem & Hun & Hpw & Hfk). unfold sql.insert_user.
  case_bool_decide as Hfresh; [done|]. intros [= <- <-].
  rewrite Exists_exists in Hfresh.
  assert (Hno : forall r, r ∈ users T ->
            id r <> new_id /\ email r <> Email u /\ username r <> Username u).
  { intros r Hr. split_and!; intros Heq; apply Hfresh; exists r; tauto. }
  unfold schema_ok. simpl. rewrite !fmap_app. simpl. split_and!.
  - apply NoDup_snoc_fresh; [done|]. intros Hin.
    apply list_elem_of_fmap in Hin as (r & Hr & Hin).
    destruct (Hno r Hin) as (? & ? & ?). simpl in Hr. congruence.
  - apply NoDup_snoc_fresh; [done|]. intros Hin.
    apply list_elem_of_fmap in Hin as (r & Hr & Hin).
    destruct (Hno r Hin) as (? & ? & ?). simpl in Hr. congruence.
  - apply NoDup_snoc_fresh; [done|]. intros Hin.
    apply list_elem_of_fmap in Hin as (r & Hr & Hin).
    destruct (Hno r Hin) as (? & ? & ?). simpl in Hr. congruence.
  - apply NoDup_snoc_fresh; [done|]. intros Hin.
    apply list_elem_of_fmap in Hin as (p & Hp & Hin).
    rewrite Forall_forall in Hfk. apply Hfk in Hin.
    apply Exists_exists in Hin as (r & Hr & Hrp).
    destruct (Hno r Hr) as (? & _). simpl in Hp. congruence.
  - apply Forall_app. split.
    + eapply Forall_impl; [exact Hfk|]. intros p Hp. simpl in Hp.
      apply Exists_app. by left.
    + apply Forall_singleton. apply Exists_app. right.
      by apply Exists_cons_hd.
Qed.

Lemma update_user_schema_ok (em : string) (u : User) (T T1 : Tables)
    (uid : Z) (h : string) :
  schema_ok T ->
  sql.update_user em u T = Done (T1, uid) ->
  schema_ok (set_user_passwords T1 (rehashed uid h <$> user_passwords T1)).
Proof.
  intros (Hid & Hem & Hun & Hpw & Hfk) Hupd.
  unfold sql.update_user in Hupd. fold (rekeyed em u) in Hupd.
  destruct (filter _ (users T)) as [|r0 rest]; [done|].
  case_bool_decide as Hc; [done|]. injection Hupd as <- <-.
  assert (Hidk : forall r, id (rekeyed em u r) = id r)
    by (intros r; unfold rekeyed; by case_bool_decide).
  assert (Hpwk : forall p, pw_id (rehashed (id r0) h p) = pw_id p)
    by (intros p; unfold rehashed; by case_bool_decide).
  assert (Hkeep : forall r, ~ email r = em -> rekeyed em u r = r)
    by (intros r Hr; unfold rekeyed; by rewrite bool_decide_eq_false_2).
  unfold schema_ok. simpl. split_and!.
  - rewrite <- list_fmap_compose.
    replace ((id ∘ rekeyed em u) <$> users T) with (id <$> users T); [done|].
    apply list_fmap_ext. intros i r _. simpl. by rewrite Hidk.
  - apply (NoDup_fmap_update email (fun r => email r = em) _ (Email u));
      [done|done| |lia].
    intros r Hr. unfold rekeyed. by rewrite bool_decide_eq_true_2.
  - apply (NoDup_fmap_update username (fun r => email r = em) _ (Username u));
      [done|done| |lia].
    intros r Hr. unfold rekeyed. by rewrite bool_decide_eq_true_2.
  - rewrite <- list_fmap_compose.
    replace ((pw_id ∘ rehashed (id r0) h) <$> user_passwords T)
      with (pw_id <$> user_passwords T); [done|].
    apply list_fmap_ext. intros i p _. simpl. by rewrite Hpwk.
  - apply Forall_fmap. eapply Forall_impl; [exact Hfk|]. intros p Hp.
    simpl. apply Exists_fmap. eapply Exists_impl; [exact Hp|].
    intros r Hr. simpl. by rewrite Hidk, Hpwk.
Qed.

End Schema.

Section Invariants.

Lemma schema_ok_ext (T T' : Tables) :
  users T' = users T -> user_passwords T' = user_passwords T ->
  schema_ok T -> schema_ok T'.
Proof. unfold schema_ok. by intros -> ->. Qed.

Lemma CreateUser_tables (u : User) (w w' : World) (r : result error User) :
  CreateUser u w = (w', r) ->
  tables w' = tables w
  \/ exists T1 uid,
      sql.insert_user (users_id_seq w) u (tables w) = Done (T1, uid)
      /\ tables w' = set_user_passwords T1
           (user_passwords T1 ++ [mkPasswordRow uid (Password u)]).
Proof.
  destruct w as [T sq fs ntx lg]. intros H. run. cases; eauto.
Qed.

Lemma UpdateUserByEmail_tables (em : string) (update : transform User)
    (w w' : World) (r : result error User) :
  UpdateUserByEmail em update w = (w', r) ->
  tables w' = tables w
  \/ exists u T1 uid,
      sql.update_user em u (tables w) = Done (T1, uid)
      /\ tables w' = set_user_passwords T1
           (rehashed uid (Password u) <$> user_passwords T1).
Proof.
  destruct w as [T sq fs ntx lg]. intros H. run.
  cases; first [ by left
               | right; eexists _, _, _; split; [eassumption | reflexivity] ].
Qed.

(** Whatever the three writers do to the store, they leave the
    constraints of the schema in force. *)
Lemma schema_ok_kept (ToLower : string -> string) (w : World) :
  schema_ok (tables w) ->
  (forall u, schema_ok (tables (CreateUser u w).1))
  /\ (forall em update, schema_ok (tables (UpdateUserByEmail em update w).1))
  /\ (forall em update,
        schema_ok (tables (UpdateFanboyByEmail ToLower em update w).1)).
Proof.
  intros Hok. split_and!.
  - intros u. destruct (CreateUser u w) as [w' r] eqn:H. simpl.
    apply CreateUser_tables in H as [->|(T1 & uid & Hins & ->)]; [done|].
    by eapply insert_user_schema_ok.
  - intros em update.
    destruct (UpdateUserByEmail em update w) as [w' r] eqn:H. simpl.
    apply UpdateUserByEmail_tables in H as [->|(u & T1 & uid & Hupd & ->)];
      [done|].
    by eapply update_user_schema_ok.
  - intros em update.
    destruct (UpdateFanboyByEmail ToLower em update w) as [w' r] eqn:H.
    apply UpdateFanboyByEmail_writes in H as (Hu & Hp & _).
    by eapply schema_ok_ext.
Qed.

(** ** No edge twice *)

Lemma NoDup_bind_pairs {A} (key : A -> Z) (c : Z) (P : A -> Prop)
    `{!forall x, Decision (P x)} (l : list A) :
  NoDup (key <$> l) ->
  NoDup (l ≫= (fun x => if bool_decide (P x) then [(c, key x)] else [])).
Proof.
  induction l as [|a l IH]; intros Hnd; [constructor|].
  rewrite fmap_cons in Hnd. apply NoDup_cons in Hnd as [Ha Hnd].
  rewrite bind_cons. case_bool_decide; simpl; [|by apply IH].
  apply NoDup_cons. split; [|by apply IH].
  intros Hin. apply list_elem_of_bind in Hin as (y & Hin & Hy).
  case_bool_decide; [|by apply elem_of_nil in Hin].
  apply list_elem_of_singleton in Hin. injection Hin as Hk.
  apply Ha. rewrite Hk. by apply list_elem_of_fmap_2.
Qed.

Lemma followed_rows_NoDup (em : string) (follows : list string) (T : Tables) :
  schema_ok T -> NoDup (sql.followed_rows em follows T).
Proof.
  intros (Hid & Hem & _). unfold sql.followed_rows.
  destruct (decide (Exists (fun u => email u = em) (users T))) as [Hex|Hno].
  - apply Exists_exists in Hex as (u0 & Hu0 & He0).
    rewrite (bind_keyed email em (users T) _ u0); [|done| |done|done].
    + by apply (NoDup_bind_pairs id (id u0)
                  (fun f => email u0 = em /\ email f ∈ follows)).
    + intros y _ Hy. apply bind_nil_all. intros f _.
      rewrite bool_decide_eq_false_2; [done|]. by intros [].
  - rewrite bind_nil_all; [constructor|]. intros u Hu.
    apply bind_nil_all. intros f _.
    rewrite bool_decide_eq_false_2; [done|]. intros [He _].
    apply Hno, Exists_exists. by exists u.
Qed.

Lemma favorited_rows_NoDup (em : string) (favors : list string) (T : Tables) :
  schema_ok T -> NoDup (article_id <$> articles T) ->
  NoDup (sql.favorited_rows em favors T).
Proof.
  intros (Hid & Hem & _) Har. unfold sql.favorited_rows.
  destruct (decide (Exists (fun u => email u = em) (users T))) as [Hex|Hno].
  - apply Exists_exists in Hex as (u0 & Hu0 & He0).
    rewrite (bind_keyed email em (users T) _ u0); [|done| |done|done].
    + by apply (NoDup_bind_pairs article_id (id u0)
                  (fun a => email u0 = em /\ slug a ∈ favors)).
    + intros y _ Hy. apply bind_nil_all. intros f _.
      rewrite bool_decide_eq_false_2; [done|]. by intros [].
  - rewrite bind_nil_all; [constructor|]. intros u Hu.
    apply bind_nil_all. intros f _.
    rewrite bool_decide_eq_false_2; [done|]. intros [He _].
    apply Hno, Exists_exists. by exists u.
Qed.

Lemma replaced_edges_NoDup (em : string) (T : Tables) (old new : list (Z * Z)) :
  NoDup old -> NoDup new ->
  (forall e, e ∈ new -> exists u, u ∈ users T /\ email u = em /\ id u = e.1) ->
  NoDup (replaced_edges em T old new).
Proof.
  intros Hold Hnew Hmine. unfold replaced_edges. apply NoDup_app.
  split; [by apply NoDup_filter|]. split; [|done].
  intros [a b] Hin Hin'. apply list_elem_of_filter in Hin as [Hnot _].
  apply Hmine in Hin' as (u & Hu & He & Hi). apply Hnot.
  apply Exists_exists. exists u. simpl in *. done.
Qed.

(** When emails and ids are keys and no edge is there twice, a full
    replace that succeeds leaves no edge twice. *)
Lemma full_replace_NoDup (ToLower : string -> string) (em : string)
    (update : transform Fanboy) (w w' : World) :
  schema_ok (tables w) -> edges_ok (tables w) ->
  UpdateFanboyByEmail ToLower em update w = (w', Ok tt) ->
  edges_ok (tables w').
Proof.
  intros Hok (Har & Hfo & Hfa) H.
  apply UpdateFanboyByEmail_done in H as (w1 & f0 & f & _ & _ & ->).
  unfold edges_ok. simpl. split_and!; [done| |].
  - apply replaced_edges_NoDup; [done|by apply followed_rows_NoDup|].
    intros [a b] Hin. apply elem_of_followed_rows in Hin
      as (u & t & Hu & _ & He & _ & -> & _). by exists u.
  - apply replaced_edges_NoDup; [done|by apply favorited_rows_NoDup|].
    intros [a b] Hin. apply elem_of_favorited_rows in Hin
      as (u & t & Hu & _ & He & _ & -> & _). by exists u.
Qed.

End Invariants.

(** * More of the user domain: unfollowing, and users with a password *)

Section Following.
Import userdomain.

Lemma set_following_same (uv : User) : set_following uv (following uv) = uv.
Proof. by destruct uv. Qed.

Lemma set_following_twice (uv : User) (l1 l2 : list ptr) :
  set_following (set_following uv l1) l2 = set_following uv l2.
Proof. done. Qed.

Lemma email_at_set_following (h : heap) a uv fs p :
  h !! a = Some uv ->
  email_at (<[a := set_following uv fs]> h) p = email_at h p.
Proof. intros Ha. unfold email_at. by apply deref_set_following. Qed.

Lemma valid_set_following (h : heap) a uv fs p :
  h !! a = Some uv -> valid h p -> valid (<[a := set_following uv fs]> h) p.
Proof.
  intros Ha [pv Hp]. unfold valid. destruct p as [b|]; simpl in *; [|done].
  destruct (decide (a = b)) as [->|Hne].
  - rewrite lookup_insert_eq. by eexists.
  - rewrite lookup_insert_ne by done. by eexists.
Qed.

Lemma followed_emails_set_following (h : heap) a uv fs l :
  h !! a = Some uv ->
  followed_emails (<[a := set_following uv fs]> h) l = followed_emails h l.
Proof.
  intros Ha. unfold followed_emails. apply list_fmap_ext.
  intros i p _. by apply email_at_set_following.
Qed.

(** [IsFollowing] looks the email up among the emails followed. *)
Lemma IsFollowing_loop_elem (h : heap) fs x xv :
  Forall (valid h) fs -> deref h x = Some xv ->
  IsFollowing_loop h fs x
  = Some (bool_decide (Some (email xv) ∈ followed_emails h fs)).
Proof.
  intros Hfs Hx. induction Hfs as [|f fs [fv Hf] _ IH].
  - done.
  - cbn [IsFollowing_loop]. rewrite Hf, Hx.
    assert (Hfe : email_at h f = Some (email fv))
      by (unfold email_at; by rewrite Hf).
    destruct (String.eqb (email fv) (email xv)) eqn:E.
    + apply String.eqb_eq in E. f_equal. symmetry.
      apply bool_decide_eq_true_2. unfold followed_emails.
      rewrite fmap_cons, Hfe, E. apply list_elem_of_here.
    + apply String.eqb_neq in E. rewrite IH. f_equal. apply bool_decide_ext.
      unfold followed_emails. rewrite fmap_cons, Hfe, elem_of_cons.
      split; [tauto|]. intros [[=]|]; [congruence|done].
Qed.

(** Rounds that meet nobody with the email of [su] change nothing. *)
Lemma StopFollowing_loop_no_match (h : heap) su suv rounds i arr cur :
  deref h su = Some suv ->
  (forall k, (i <= k < i + rounds)%nat ->
     exists f fv, arr !! k = Some f /\ deref h f = Some fv
                  /\ email fv <> email suv) ->
  StopFollowing_loop h su rounds i arr cur = Some (arr, cur).
Proof.
  intros Hsu. revert i. induction rounds as [|rounds IH]; intros i Hk; [done|].
  simpl. destruct (Hk i) as (f & fv & -> & Hf & Hne); [lia|].
  rewrite Hf, Hsu. apply String.eqb_neq in Hne. rewrite Hne.
  apply IH. intros k Hr. apply Hk. lia.
Qed.

(** The loop, from a point where nothing has been removed yet: under
    the invariant it removes the one entry with the email of [su]. *)
Lemma StopFollowing_loop_filter (h : heap) su suv pre rest :
  deref h su = Some suv ->
  Forall (valid h) rest ->
  NoDup (followed_emails h rest) ->
  exists arr cur,
    StopFollowing_loop h su (length rest) (length pre) (pre ++ rest)
                       (length (pre ++ rest)) = Some (arr, cur)
    /\ take cur arr
       = pre ++ filter (fun p => email_at h p <> Some (email suv)) rest.
Proof.
  intros Hsu. revert pre. induction rest as [|f rest IH]; intros pre Hv Hnd.
  - simpl. eexists _, _. split; [done|]. by rewrite take_ge by lia.
  - apply Forall_cons in Hv as [[fv Hf] Hv].
    unfold followed_emails in Hnd. rewrite fmap_cons in Hnd.
    apply NoDup_cons in Hnd as [Hfresh Hnd]. fold (followed_emails h rest) in *.
    assert (Hfe : email_at h f = Some (email fv))
      by (unfold email_at; by rewrite Hf).
    simpl. rewrite list_lookup_middle by done. rewrite Hf, Hsu.
    destruct (String.eqb (email fv) (email suv)) eqn:E.
    + apply String.eqb_eq in E. unfold remove_at.
      rewrite decide_True by (rewrite length_app; simpl; lia).
      rewrite (take_ge (pre ++ f :: rest) (length (pre ++ f :: rest))) by lia.
      rewrite take_app_length.
      assert (Hdrop : drop (S (length pre)) (pre ++ f :: rest) = rest).
      { rewrite (cons_middle f pre rest), app_assoc.
        replace (S (length pre)) with (length (pre ++ [f]))
          by (rewrite length_app; simpl; lia).
        apply drop_app_length. }
      rewrite Hdrop.
      assert (Hother : forall p, p ∈ rest ->
                exists pv, deref h p = Some pv /\ email pv <> email suv).
      { intros p Hp. rewrite Forall_forall in Hv.
        destruct (Hv p Hp) as [pv Hpv]. exists pv. split; [done|].
        intros Heq. apply Hfresh. rewrite Hfe, E, <- Heq.
        apply list_elem_of_fmap. exists p. split; [|done].
        unfold email_at. by rewrite Hpv. }
      assert (Hkeep : filter (fun p => email_at h p <> Some (email suv)) rest
                      = rest).
      { clear -Hother. induction rest as [|p rest IH]; [done|].
        destruct (Hother p) as (pv & Hp & Hne); [apply list_elem_of_here|].
        rewrite filter_cons_True.
        - f_equal. apply IH. intros q Hq. apply Hother. by apply list_elem_of_further.
        - unfold email_at. rewrite Hp. simpl. congruence. }
      rewrite filter_cons_False by (rewrite Hfe, E; tauto). rewrite Hkeep.
      set (tl := drop (length (pre ++ f :: rest) - 1) (pre ++ f :: rest)).
      assert (Htl : forall p, p ∈ tl -> rest <> [] -> p ∈ rest).
      { intros p Hp Hne. unfold tl in Hp. rewrite length_app in Hp.
        simpl in Hp.
        replace (length pre + S (length rest) - 1)%nat
          with (length pre + length rest)%nat in Hp by lia.
        rewrite drop_app_add' in Hp by done.
        destruct rest as [|r rest']; [done|]. simpl in Hp.
        by eapply elem_of_sublist, sublist_drop. }
      eexists _, _. split.
      * apply (StopFollowing_loop_no_match h su suv); [done|].
        intros k Hk.
        assert (Hin : exists p, (pre ++ rest ++ tl) !! k = Some p /\ p ∈ rest).
        { destruct (decide (k < length pre + length rest)%nat).
          - rewrite lookup_app_r by lia.
            rewrite lookup_app_l by lia.
            destruct (lookup_lt_is_Some_2 rest (k - length pre)) as [p Hp];
              [lia|].
            exists p. split; [done|]. by eapply list_elem_of_lookup_2.
          - rewrite lookup_app_r by lia. rewrite lookup_app_r by lia.
            assert (Hlen : length tl = 1%nat).
            { unfold tl. rewrite length_drop, length_app. simpl. lia. }
            destruct (lookup_lt_is_Some_2 tl (k - length pre - length rest))
              as [p Hp]; [lia|].
            exists p. split; [done|]. apply Htl.
            + by eapply list_elem_of_lookup_2.
            + intros ->. simpl in Hk. lia. }
        destruct Hin as (p & Hp & Hin).
        destruct (Hother p Hin) as (pv & Hpv & Hne). by exists p, pv.
      * rewrite length_app. simpl.
        replace (length pre + S (length rest) - 1)%nat
          with (length (pre ++ rest)) by (rewrite length_app; lia).
        by rewrite app_assoc, take_app_length.
    + apply String.eqb_neq in E.
      destruct (IH (pre ++ [f]) Hv Hnd) as (arr & cur & Hloop & Htake).
      rewrite <- app_assoc in Hloop. simpl in Hloop.
      rewrite length_app in Hloop. simpl in Hloop.
      replace (length pre + 1)%nat with (S (length pre)) in Hloop by lia.
      exists arr, cur. split; [done|].
      rewrite Htake, <- app_assoc. simpl.
      rewrite filter_cons_True; [done|]. rewrite Hfe. congruence.
Qed.

Lemma StopFollowing_filter (h : heap) a uv su suv :
  h !! a = Some uv -> deref h su = Some suv ->
  Forall (valid h) (following uv) ->
  NoDup (followed_emails h (following uv)) ->
  StopFollowing h (Some a) su
  = Some (<[a := set_following uv
             (filter (fun p => email_at h p <> Some (email suv))
                     (following uv))]> h).
Proof.
  intros Ha Hsu Hv Hnd. unfold StopFollowing. simpl. rewrite Ha.
  destruct (StopFollowing_loop_filter h su suv [] (following uv) Hsu Hv Hnd)
    as (arr & cur & Hloop & Htake).
  simpl in Hloop. rewrite Hloop, Htake. done.
Qed.

Lemma filter_all {A} (P : A -> Prop) `{!forall x, Decision (P x)} (l : list A) :
  (forall x, x ∈ l -> P x) -> filter P l = l.
Proof.
  induction l as [|a l IH]; intros Hall; [done|].
  rewrite filter_cons_True by (apply Hall, list_elem_of_here).
  f_equal. apply IH. intros x Hx. by apply Hall, list_elem_of_further.
Qed.

Lemma followed_emails_filter (h : heap) (e : option string) l :
  followed_emails h (filter (fun p => email_at h p <> e) l)
  = filter (fun x => x <> e) (followed_emails h l).
Proof.
  unfold followed_emails. induction l as [|p l IH]; [done|].
  rewrite fmap_cons. destruct (decide (email_at h p = e)) as [He|He].
  - rewrite !filter_cons_False by tauto. done.
  - rewrite !filter_cons_True by done. rewrite fmap_cons. by f_equal.
Qed.

Lemma IsFollowing_set_following (h : heap) a uv fs x xv :
  h !! a = Some uv -> Forall (valid h) fs -> deref h x = Some xv ->
  IsFollowing (<[a := set_following uv fs]> h) (Some a) x
  = Some (bool_decide (Some (email xv) ∈ followed_emails h fs)).
Proof.
  intros Ha Hfs Hx. unfold IsFollowing. simpl. rewrite lookup_insert_eq. simpl.
  rewrite (IsFollowing_loop_ext h) by (intros p; by apply deref_set_following).
  by apply IsFollowing_loop_elem.
Qed.

Lemma IsFollowing_elem (h : heap) a uv x xv :
  h !! a = Some uv -> Forall (valid h) (following uv) -> deref h x = Some xv ->
  IsFollowing h (Some a) x
  = Some (bool_decide (Some (email xv) ∈ followed_emails h (following uv))).
Proof.
  intros Ha Hfs Hx. unfold IsFollowing. simpl. rewrite Ha.
  by apply IsFollowing_loop_elem.
Qed.

Lemma Forall_valid_filter (h : heap) (P : ptr -> Prop)
    `{!forall x, Decision (P x)} (l : list ptr) :
  Forall (valid h) l -> Forall (valid h) (filter P l).
Proof.
  intros Hl. apply Forall_forall. intros x Hx.
  apply list_elem_of_filter in Hx as [_ Hx]. by eapply Forall_forall in Hl.
Qed.

(** X1: unfollowing: for a user that follows nobody twice, [u.StopFollowing(su)]
    returns, afterwards [u.IsFollowing(su)] is false, a second call
    changes nothing, and when [u] did not follow [su] the first call
    changes nothing either. *)
Theorem StopFollowing_unfollows (h : heap) (u su : ptr) :
  following_ok h u -> valid h su ->
  exists h',
    StopFollowing h u su = Some h'
    /\ IsFollowing h' u su = Some false
    /\ StopFollowing h' u su = Some h'
    /\ (IsFollowing h u su = Some false -> h' = h).
Proof.
  intros (uv & Hu & Hv & Hnd) [suv Hsu].
  destruct u as [a|]; [|done]. simpl in Hu.
  set (keep := fun p => email_at h p <> Some (email suv)).
  set (h' := <[a := set_following uv (filter keep (following uv))]> h).
  assert (Hsu' : deref h' su = Some (set_following suv (following suv))
                 \/ deref h' su = Some suv
                 \/ exists fs, deref h' su = Some (set_following suv fs)).
  { destruct su as [b|]; [|done]. simpl in *. unfold h'.
    destruct (decide (a = b)) as [->|Hne].
    - rewrite lookup_insert_eq. right. right. eexists. by simplify_eq.
    - rewrite lookup_insert_ne by done. by right; left. }
  assert (Hem : exists suv', deref h' su = Some suv' /\ email suv' = email suv).
  { destruct Hsu' as [H|[H|[fs H]]]; eexists; (split; [exact H|done]). }
  destruct Hem as (suv' & Hsu'' & Hem).
  assert (Hgone : Some (email suv)
                  ∉ followed_emails h (filter keep (following uv))).
  { unfold keep. rewrite followed_emails_filter.
    intros Hin. apply list_elem_of_filter in Hin as [Hne _]. done. }
  exists h'. split_and!.
  - by apply StopFollowing_filter.
  - unfold h'. rewrite (IsFollowing_set_following h a uv _ su suv);
      [|done|by apply Forall_valid_filter|done].
    by rewrite bool_decide_eq_false_2.
  - rewrite (StopFollowing_filter h' a (set_following uv (filter keep (following uv)))
               su suv').
    + simpl. unfold h'. rewrite insert_insert_eq. f_equal. f_equal.
      rewrite set_following_twice. f_equal. rewrite Hem.
      apply filter_all. intros p Hp.
      rewrite email_at_set_following by done.
      by apply list_elem_of_filter in Hp as [? _].
    + unfold h'. by rewrite lookup_insert_eq.
    + done.
    + simpl. apply Forall_valid_filter.
      eapply Forall_impl; [exact Hv|]. intros p. by apply valid_set_following.
    + simpl. unfold h'. rewrite followed_emails_set_following by done.
      unfold keep. rewrite followed_emails_filter. by apply NoDup_filter.
  - rewrite (IsFollowing_elem h a uv su suv) by done.
    intros [= Hb]. apply bool_decide_eq_false in Hb.
    unfold h'. rewrite filter_all.
    + rewrite set_following_same. by apply insert_id.
    + intros p Hp. unfold keep. intros Heq. apply Hb. rewrite <- Heq.
      by apply list_elem_of_fmap_2.
Qed.

(** X2: unfollowing [su] changes nothing about anyone with another email. *)
Theorem StopFollowing_keeps_others (h h' : heap) (u su x : ptr) :
  following_ok h u -> valid h su -> valid h x ->
  email_at h x <> email_at h su ->
  StopFollowing h u su = Some h' ->
  IsFollowing h' u x = IsFollowing h u x.
Proof.
  intros (uv & Hu & Hv & Hnd) [suv Hsu] [xv Hx] Hne.
  destruct u as [a|]; [|done]. simpl in Hu.
  rewrite (StopFollowing_filter h a uv su suv) by done. intros [= <-].
  rewrite (IsFollowing_set_following h a uv _ x xv);
    [|done|by apply Forall_valid_filter|done].
  rewrite (IsFollowing_elem h a uv x xv) by done.
  f_equal. apply bool_decide_ext. rewrite followed_emails_filter.
  rewrite list_elem_of_filter. split; [tauto|]. intros Hin. split; [|done].
  unfold email_at in Hne. rewrite Hx, Hsu in Hne. simpl in Hne. done.
Qed.

(** X3: following someone new and unfollowing them again gives back the heap
    there was. *)
Theorem StartFollowing_StopFollowing (h : heap) (u fu : ptr) :
  following_ok h u -> valid h fu ->
  IsFollowing h u fu = Some false ->
  exists h1, StartFollowing h u fu = Some h1
             /\ IsFollowing h1 u fu = Some true
             /\ StopFollowing h1 u fu = Some h.
Proof.
  intros (uv & Hu & Hv & Hnd) [fuv Hfu] Hno.
  destruct u as [a|]; [|done]. simpl in Hu.
  pose proof Hno as Hno'.
  rewrite (IsFollowing_elem h a uv fu fuv) in Hno' by done.
  injection Hno' as Hno'. apply bool_decide_eq_false in Hno'.
  set (h1 := <[a := set_following uv (following uv ++ [fu])]> h).
  assert (Hfe : email_at h fu = Some (email fuv))
    by (unfold email_at; by rewrite Hfu).
  assert (Hv1 : Forall (valid h) (following uv ++ [fu])).
  { apply Forall_app. split; [done|]. apply Forall_singleton. by eexists. }
  assert (Hfu1 : exists fuv', deref h1 fu = Some fuv' /\ email fuv' = email fuv).
  { destruct fu as [b|]; [|done]. simpl in *. unfold h1.
    destruct (decide (a = b)) as [->|Hne].
    - rewrite lookup_insert_eq. eexists. split; [done|]. by simplify_eq.
    - rewrite lookup_insert_ne by done. by eexists. }
  destruct Hfu1 as (fuv' & Hfu1 & Hem).
  exists h1. split_and!.
  - unfold StartFollowing. rewrite Hno. simpl. by rewrite Hu.
  - unfold h1. rewrite (IsFollowing_set_following h a uv _ fu fuv) by done.
    rewrite bool_decide_eq_true_2; [done|].
    unfold followed_emails. rewrite fmap_app. apply elem_of_app. right.
    simpl. rewrite Hfe. apply list_elem_of_here.
  - rewrite (StopFollowing_filter h1 a
               (set_following uv (following uv ++ [fu])) fu fuv').
    + simpl. unfold h1. rewrite insert_insert_eq.
      rewrite filter_app, filter_cons_False, filter_nil, app_nil_r.
      * rewrite filter_all.
        -- rewrite set_following_twice, set_following_same.
           f_equal. by apply insert_id.
        -- intros p Hp. rewrite email_at_set_following by done.
           rewrite Hem. intros Heq. apply Hno'. rewrite <- Heq.
           by apply list_elem_of_fmap_2.
      * rewrite email_at_set_following by done. rewrite Hfe, Hem. tauto.
    + unfold h1. by rewrite lookup_insert_eq.
    + done.
    + simpl. eapply Forall_impl; [exact Hv1|].
      intros p. by apply valid_set_following.
    + simpl. unfold h1. rewrite followed_emails_set_following by done.
      unfold followed_emails. rewrite fmap_app. simpl.
      apply NoDup_snoc_fresh; [done|]. by rewrite Hfe.
Qed.

(** X4: the invariant of following lists is kept, for every user on the
    heap, by following and by unfollowing. *)
Theorem following_ok_kept (h h' : heap) (u x v : ptr) :
  following_ok h u -> valid h x ->
  StartFollowing h u x = Some h' \/ StopFollowing h u x = Some h' ->
  following_ok h v -> following_ok h' v.
Proof.
  intros (uv & Hu & Hv & Hnd) [xv Hx] Hstep Hok.
  destruct u as [a|]; [|done]. simpl in Hu.
  assert (Hfe : email_at h x = Some (email xv))
    by (unfold email_at; by rewrite Hx).
  assert (Hh' : h' = h
                \/ exists fs, h' = <[a := set_following uv fs]> h
                     /\ Forall (valid h) fs /\ NoDup (followed_emails h fs)).
  { destruct Hstep as [Hs|Hs].
    - unfold StartFollowing in Hs.
      rewrite (IsFollowing_elem h a uv x xv) in Hs by done.
      case_bool_decide as Hin; simpl in Hs; [left; congruence|].
      rewrite Hu in Hs. injection Hs as <-.
      right. eexists. split; [reflexivity|]. split.
      + apply Forall_app. split; [done|]. apply Forall_singleton. by eexists.
      + unfold followed_emails. rewrite fmap_app. simpl.
        apply NoDup_snoc_fresh; [done|]. by rewrite Hfe.
    - rewrite (StopFollowing_filter h a uv x xv) in Hs by done.
      injection Hs as <-. right. eexists. split; [reflexivity|]. split.
      + by apply Forall_valid_filter.
      + rewrite followed_emails_filter. by apply NoDup_filter. }
  destruct Hh' as [->|(fs & -> & Hfs & Hndfs)]; [done|].
  destruct Hok as (vv & Hvv & Hvf & Hvnd).
  destruct v as [b|]; [|done]. simpl in Hvv.
  destruct (decide (a = b)) as [->|Hne].
  - exists (set_following uv fs). simpl. rewrite lookup_insert_eq.
    split; [done|]. split.
    + eapply Forall_impl; [exact Hfs|]. intros p. by apply valid_set_following.
    + by rewrite followed_emails_set_following.
  - exists vv. simpl. rewrite lookup_insert_ne by done.
    split; [done|]. split.
    + eapply Forall_impl; [exact Hvf|]. intros p. by apply valid_set_following.
    + by rewrite followed_emails_set_following.
Qed.

(** X5: [IsFollowing] goes by the email, not by the pointer: a user with the
    email of one followed already is followed, and following it adds
    nothing. *)
Theorem StartFollowing_same_email (h : heap) (u x y : ptr) :
  valid_user h u -> valid h x -> valid h y ->
  email_at h x = email_at h y ->
  IsFollowing h u x = IsFollowing h u y
  /\ (IsFollowing h u x = Some true -> StartFollowing h u y = Some h).
Proof.
  intros (uv & Hu & Hv) [xv Hx] [yv Hy] Heq.
  destruct u as [a|]; [|done]. simpl in Hu.
  unfold email_at in Heq. rewrite Hx, Hy in Heq. injection Heq as Heq.
  assert (Hsame : IsFollowing h (Some a) x = IsFollowing h (Some a) y).
  { rewrite (IsFollowing_elem h a uv x xv), (IsFollowing_elem h a uv y yv)
      by done. by rewrite Heq. }
  split; [done|]. intros Ht. unfold StartFollowing. by rewrite <- Hsame, Ht.
Qed.

(** X6: [StartFollowing(nil)] on a user that follows nobody returns, and
    leaves a user on which [IsFollowing], [StartFollowing] and
    [StopFollowing] panic whoever they are asked about; on a user that
    follows somebody it panics itself. *)
Theorem StartFollowing_nil (h : heap) (a : nat) (uv : User) :
  h !! a = Some uv ->
  (following uv = [] ->
   exists h1,
     StartFollowing h (Some a) None = Some h1
     /\ forall x, IsFollowing h1 (Some a) x = None
                  /\ StartFollowing h1 (Some a) x = None
                  /\ StopFollowing h1 (Some a) x = None)
  /\ (following uv <> [] -> Forall (valid h) (following uv) ->
      StartFollowing h (Some a) None = None).
Proof.
  intros Ha. split.
  - intros Hnil. eexists. split.
    + unfold StartFollowing, IsFollowing. simpl. rewrite Ha, Hnil. simpl.
      reflexivity.
    + intros x. unfold StartFollowing, StopFollowing, IsFollowing. simpl.
      rewrite lookup_insert_eq. simpl. done.
  - intros Hne Hv. unfold StartFollowing, IsFollowing. simpl. rewrite Ha.
    destruct (following uv) as [|f fs]; [done|].
    apply Forall_cons in Hv as [[fv Hf] _]. simpl. by rewrite Hf.
Qed.

End Following.

Section Passwords.
Import userdomain.
Variable GenerateFromPassword : string -> nat -> result error string.
Variable CompareHashAndPassword : string -> string -> option error.

(** X7: [NewUserWithPasswordHash] does not look at the bio and the image it
    is given: it fails exactly on an empty email or username, and the
    user it returns has an empty bio and image and the hash as its
    password, whatever the hash is. *)
Theorem NewUserWithPasswordHash_drops_bio_image
    (email username bio image hash : string) :
  NewUserWithPasswordHash email username bio image hash
  = NewUserWithPasswordHash email username "" "" hash
  /\ (NewUserWithPasswordHash email username bio image hash
      = Err ErrorRequiredUserFields <-> email = "" \/ username = "")
  /\ (email <> "" -> username <> "" ->
      NewUserWithPasswordHash email username bio image hash
      = Ok (mkUserWithPassword (mkUser email username "" "" []) hash)).
Proof.
  split; [done|]. unfold NewUserWithPasswordHash. split.
  - rewrite <- (NewUser_error email username "" "").
    destruct (NewUser email username "" "") as [?|[]|]; split; congruence.
  - intros He Hu. by rewrite NewUser_ok.
Qed.

(** X8: a user made by [NewUserWithPassword] keeps the hash bcrypt gave for
    the password at cost 14; [HasPassword] accepts a password exactly
    when bcrypt accepts it against that hash; and the user is what
    [NewUserWithPasswordHash] makes of its email, username and hash. *)
Theorem NewUserWithPassword_hash (email username password hash : string) :
  email <> "" -> username <> "" -> password <> "" ->
  GenerateFromPassword password 14 = Ok hash ->
  exists uw,
    NewUserWithPassword GenerateFromPassword email username password = Ok uw
    /\ Password uw = hash
    /\ (forall pw, HasPassword CompareHashAndPassword uw pw = (true, None)
                   <-> CompareHashAndPassword hash pw = None)
    /\ (forall bio image,
          NewUserWithPasswordHash email username bio image (Password uw)
          = Ok uw).
Proof.
  intros He Hu Hp Hgen. eexists. split_and!.
  - unfold NewUserWithPassword. apply is_empty_false in Hp. rewrite Hp.
    rewrite NewUser_ok by done. rewrite Hgen. done.
  - done.
  - intros pw. unfold HasPassword. simpl.
    destruct (CompareHashAndPassword hash pw); split; congruence.
  - intros bio image. unfold NewUserWithPasswordHash.
    by rewrite NewUser_ok.
Qed.

End Passwords.

(** * More of the adapter: lookups, and what the writers leave behind *)

Section Lookups.

Lemma user_rows_by_username_stored (T : Tables) (un : string) (v : User) :
  v ∈ sql.user_rows_by_username un T
  <-> exists u p, u ∈ users T /\ p ∈ user_passwords T
                  /\ username u = un /\ id u = pw_id p /\ v = user_of u p.
Proof.
  unfold sql.user_rows_by_username. rewrite list_elem_of_bind. split.
  - intros (u & Hv & Hu). apply list_elem_of_bind in Hv as (p & Hv & Hp).
    case_bool_decide as Hc; [|by apply elem_of_nil in Hv].
    apply list_elem_of_singleton in Hv. destruct Hc. by exists u, p.
  - intros (u & p & Hu & Hp & He & Hi & ->). exists u. split; [|done].
    apply list_elem_of_bind. exists p. split; [|done].
    rewrite bool_decide_eq_true_2 by done. by apply list_elem_of_singleton.
Qed.

Lemma user_rows_by_username_keyed (T : Tables) (u : UserRow) (p : PasswordRow) :
  schema_ok T -> u ∈ users T -> p ∈ user_passwords T -> id u = pw_id p ->
  sql.user_rows_by_username (username u) T = [user_of u p].
Proof.
  intros (_ & _ & Hun & Hpw & _) Hu Hp Hi. unfold sql.user_rows_by_username.
  rewrite (bind_keyed username (username u) (users T) _ u); [|done| |done|done].
  - rewrite (bind_keyed pw_id (id u) (user_passwords T) _ p);
      [|done| |done|done].
    + by rewrite bool_decide_eq_true_2.
    + intros q _ Hq. rewrite bool_decide_eq_false_2; [done|]. intros []. congruence.
  - intros y _ Hy. apply bind_nil_all. intros q _.
    rewrite bool_decide_eq_false_2; [done|]. by intros [].
Qed.

Lemma select_user_by_username_none (T : Tables) (un : string) :
  (forall u p, u ∈ users T -> p ∈ user_passwords T -> id u = pw_id p ->
               username u <> un) ->
  sql.select_user_by_username un T = Failed ErrNoRows.
Proof.
  intros Hno. unfold sql.select_user_by_username.
  destruct (sql.user_rows_by_username un T) as [|v l] eqn:E; [done|].
  exfalso. assert (Hv : v ∈ sql.user_rows_by_username un T)
    by (rewrite E; apply list_elem_of_here).
  apply user_rows_by_username_stored in Hv as (u & p & ? & ? & ? & ? & _).
  by eapply Hno.
Qed.

Lemma select_user_by_username_stored (T : Tables) (un : string) (v : User) :
  sql.select_user_by_username un T = Done v ->
  stored_user T (Email v) v /\ Username v = un.
Proof.
  unfold sql.select_user_by_username. intros H.
  assert (Hv : v ∈ sql.user_rows_by_username un T).
  { destruct (sql.user_rows_by_username un T) as [|v' [|? ?]]; simplify_eq.
    apply list_elem_of_here. }
  apply user_rows_by_username_stored in Hv as (u & p & ? & ? & ? & ? & ->).
  split; [by exists u, p|done].
Qed.

Lemma calm_one (w : World) : calm 1 w <-> pending (faults w) = None.
Proof.
  unfold calm. destruct (faults w) as [|[msg|] fs]; simpl.
  - split; [done|constructor].
  - split; [|done]. intros H. apply Forall_cons in H as [H _]. done.
  - split; [done|]. intros _. by repeat constructor.
Qed.

(** X9: [GetUserByUsername] is one select on the pool and leaves the
    tables alone.  When the store answers, it returns the user with that
    username and its credential row, and [ErrUserNotFound] when there is
    no such user; a failure of the store is returned as it is. *)
Theorem GetUserByUsername_lookup (un : string) (w : World) :
  tables (GetUserByUsername un w).1 = tables w
  /\ (exists o, trace w (GetUserByUsername un w).1 = [EStmt None SelectUser o])
  /\ (forall u p, schema_ok (tables w) ->
        u ∈ users (tables w) -> p ∈ user_passwords (tables w) ->
        id u = pw_id p -> username u = un -> calm 1 w ->
        (GetUserByUsername un w).2 = Ok (user_of u p))
  /\ ((forall u p, u ∈ users (tables w) -> p ∈ user_passwords (tables w) ->
                   id u = pw_id p -> username u <> un) ->
      calm 1 w -> (GetUserByUsername un w).2 = Err ErrUserNotFound)
  /\ (forall msg, pending (faults w) = Some msg ->
                  (GetUserByUsername un w).2 = Err (Failure msg)).
Proof.
  destruct w as [T sq fs ntx lg]. unfold GetUserByUsername. split_and!.
  - run. cases; done.
  - run. cases; settle_trace; eauto.
  - intros u p Hok Hu Hp Hi <- Hcalm. simpl in *.
    pose proof (user_rows_by_username_keyed T u p Hok Hu Hp Hi) as Hrows.
    calm_down Hcalm. run. known. unfold sql.select_user_by_username.
    by rewrite Hrows.
  - intros Hno Hcalm. simpl in *. apply select_user_by_username_none in Hno.
    calm_down Hcalm. run. known. done.
  - intros msg Hp. simpl in Hp. run. by rewrite Hp.
Qed.

(** X10: looking a user up by username and by email gives the same user:
    the user found under a username is the one found under its email,
    and the other way round. *)
Theorem lookups_agree (w w1 : World) (v : User) :
  schema_ok (tables w) -> calm 1 w1 ->
  (forall un, GetUserByUsername un w = (w1, Ok v) ->
     Username v = un /\ (GetAuthorByEmail (Email v) w1).2 = Some v)
  /\ (forall em, GetAuthorByEmail em w = (w1, Some v) ->
     Email v = em /\ (GetUserByUsername (Username v) w1).2 = Ok v).
Proof.
  intros Hok Hcalm. apply calm_one in Hcalm. split.
  - intros un Hrun. destruct w as [T sq fs ntx lg].
    unfold GetUserByUsername in Hrun. run_hyp Hrun.
    destruct (pending fs); simpl in Hrun; [by simplify_eq|].
    destruct (sql.select_user_by_username un T) as [v'|e] eqn:Hsel;
      simpl in Hrun; [|destruct (is_no_rows e); by simplify_eq].
    injection Hrun as <- <-.
    apply select_user_by_username_stored in Hsel as [Hst Hun].
    split; [done|]. apply select_user_keyed in Hst; [|done].
    simpl in Hcalm. run. rewrite Hcalm. simpl. by rewrite Hst.
  - intros em Hrun. destruct w as [T sq fs ntx lg]. run_hyp Hrun.
    destruct (pending fs); simpl in Hrun; [by simplify_eq|].
    destruct (sql.select_user em T) as [v'|e] eqn:Hsel;
      simpl in Hrun; [|destruct (is_no_rows e); by simplify_eq].
    injection Hrun as <- <-.
    apply select_user_stored in Hsel as (u & p & Hu & Hp & He & Hi & ->).
    split; [done|]. simpl in Hcalm. unfold GetUserByUsername. run.
    rewrite Hcalm. simpl. unfold sql.select_user_by_username.
    change (Username (user_of u p)) with (username u).
    by rewrite (user_rows_by_username_keyed T u p).
Qed.

End Lookups.

Section Creating.

Lemma insert_user_fresh (new_id : Z) (u : User) (T : Tables) :
  (forall r, r ∈ users T ->
     id r <> new_id /\ email r <> Email u /\ username r <> Username u) ->
  sql.insert_user new_id u T
  = Done (set_users T (users T ++
            [mkUserRow new_id (Email u) (Username u) (Bio u) (Image u)]),
          new_id).
Proof.
  intros Hfresh. unfold sql.insert_user.
  rewrite bool_decide_eq_false_2; [done|].
  intros Hex. apply Exists_exists in Hex as (r & Hr & Hdup).
  destruct (Hfresh r Hr) as (? & ? & ?). tauto.
Qed.

Lemma seq_fresh (u : User) (w : World) :
  seq_ok w ->
  (forall r, r ∈ users (tables w) ->
     email r <> Email u /\ username r <> Username u) ->
  forall r, r ∈ users (tables w) ->
    id r <> users_id_seq w /\ email r <> Email u /\ username r <> Username u.
Proof.
  intros Hseq Hfresh r Hr. destruct (Hfresh r Hr) as [? ?].
  unfold seq_ok in Hseq. rewrite Forall_forall in Hseq.
  specialize (Hseq r Hr). split_and!; [lia|done|done].
Qed.

Lemma created_is_stored (u : User) (T : Tables) (new_id : Z) :
  stored_user
    (set_user_passwords
       (set_users T (users T ++
          [mkUserRow new_id (Email u) (Username u) (Bio u) (Image u)]))
       (user_passwords T ++ [mkPasswordRow new_id (Password u)]))
    (Email u) u.
Proof.
  exists (mkUserRow new_id (Email u) (Username u) (Bio u) (Image u)),
         (mkPasswordRow new_id (Password u)).
  simpl. split_and!; try done.
  - apply elem_of_app. right. apply list_elem_of_here.
  - apply elem_of_app. right. apply list_elem_of_here.
  - by destruct u.
Qed.

(** X11: creating a user whose email and username are new, in a store that
    satisfies its constraints and answers, returns that user; the row of
    the user and the row of its credential are appended under the id the
    sequence gave, the constraints still hold, and the user is found
    under its username and under its email. *)
Theorem CreateUser_then_lookup (u : User) (w : World) :
  schema_ok (tables w) -> seq_ok w ->
  (forall r, r ∈ users (tables w) ->
     email r <> Email u /\ username r <> Username u) ->
  calm 6 w ->
  exists w',
    CreateUser u w = (w', Ok u)
    /\ users (tables w')
       = users (tables w)
         ++ [mkUserRow (users_id_seq w) (Email u) (Username u) (Bio u)
                       (Image u)]
    /\ user_passwords (tables w')
       = user_passwords (tables w)
         ++ [mkPasswordRow (users_id_seq w) (Password u)]
    /\ schema_ok (tables w') /\ seq_ok w'
    /\ (GetUserByUsername (Username u) w').2 = Ok u
    /\ (GetAuthorByEmail (Email u) w').2 = Some u.
Proof.
  intros Hok Hseq Hfresh Hcalm.
  pose proof (seq_fresh u w Hseq Hfresh) as Hnew.
  destruct w as [T sq fs ntx lg]. simpl in *.
  pose proof (insert_user_fresh sq u T Hnew) as Hins.
  pose proof (insert_user_schema_ok sq u T _ _ Hok Hins) as Hok'.
  pose proof (created_is_stored u T sq) as Hst.
  pose proof (select_user_keyed _ _ _ Hok' Hst) as Hsel.
  destruct Hst as (row & pw & Hrow & Hpw & Hem & Hid & Hv).
  pose proof (user_rows_by_username_keyed _ row pw Hok' Hrow Hpw Hid) as Hrows.
  rewrite <- Hv in Hrows.
  replace (username row) with (Username u) in Hrows by (by rewrite Hv).
  calm_down Hcalm. unfold GetUserByUsername. run. known.
  eexists. split; [reflexivity|]. simpl. split_and!; try done.
  - unfold seq_ok in *. simpl in *. apply Forall_app. split.
    + eapply Forall_impl; [exact Hseq|]. simpl. intros r Hr. clear -Hr. lia.
    + apply Forall_singleton. simpl. lia.
  - unfold sql.select_user_by_username. by rewrite Hcalm5, Hrows.
  - by rewrite Hcalm5, Hsel.
Qed.

Lemma insert_user_done (new_id : Z) (u : User) (T T1 : Tables) (uid : Z) :
  sql.insert_user new_id u T = Done (T1, uid) ->
  T1 = set_users T (users T ++
         [mkUserRow new_id (Email u) (Username u) (Bio u) (Image u)])
  /\ uid = new_id.
Proof.
  unfold sql.insert_user. case_bool_decide; [done|]. by intros [= <- <-].
Qed.

(** X12: an error of [CreateUser] does not say that nothing was created.
    When the store answers the four calls of the transaction and fails
    the read that follows the commit, [CreateUser] returns that failure,
    and the user is stored. *)
Theorem CreateUser_reread_failure (u : User) (w : World) (msg : string)
    (rest : list (option string)) :
  seq_ok w ->
  (forall r, r ∈ users (tables w) ->
     email r <> Email u /\ username r <> Username u) ->
  faults w = [None; None; None; None; Some msg] ++ rest ->
  exists w',
    CreateUser u w = (w', Err (Failure msg))
    /\ stored_user (tables w') (Email u) u
    /\ trace w w' = [EBegin (next_tx w);
                     EStmt (Some (next_tx w)) InsertUser None;
                     EStmt (Some (next_tx w)) InsertPassword None;
                     ECommit (next_tx w) None;
                     EStmt None SelectUser (Some (Failure msg))].
Proof.
  intros Hseq Hfresh Hfs.
  pose proof (seq_fresh u w Hseq Hfresh) as Hnew.
  destruct w as [T sq fs ntx lg]. simpl in *. subst fs.
  pose proof (insert_user_fresh sq u T Hnew) as Hins.
  run. known. eexists. split; [reflexivity|]. simpl. split.
  - apply created_is_stored.
  - settle_trace. done.
Qed.


End Creating.

Section Updating.
Variable ToLower : string -> string.

Lemma UpdateFanboyByEmail_tables (em : string) (update : transform Fanboy)
    (w w' : World) (r : result error unit) :
  UpdateFanboyByEmail ToLower em update w = (w', r) ->
  users_id_seq w' = users_id_seq w /\ (r = Ok tt \/ tables w' = tables w).
Proof.
  unfold UpdateFanboyByEmail. unfold bind at 1.
  destruct (GetUserByEmail_frame ToLower em w) as (HT & Hsq & _).
  destruct (GetUserByEmail ToLower em w) as [w1 r1]. simpl in HT, Hsq.
  destruct w1 as [T1 sq fs ntx lg]. simpl in HT, Hsq. subst T1 sq.
  intros H. unfold_store. simpl in H. cases; auto.
Qed.

(** X14: [UpdateFanboyByEmail] is all or nothing: unless it returns
    without an error, the tables are what they were; and it never draws
    from the sequence of user ids. *)
Theorem UpdateFanboyByEmail_all_or_nothing (em : string)
    (update : transform Fanboy) (w w' : World) (r : result error unit) :
  UpdateFanboyByEmail ToLower em update w = (w', r) ->
  users_id_seq w' = users_id_seq w
  /\ (r <> Ok tt -> tables w' = tables w).
Proof.
  intros H. apply UpdateFanboyByEmail_tables in H as [Hsq [->|HT]]; done.
Qed.

(** X15: [UpdateUserByEmail] touches the two tables of users only, and
    there neither the number of rows nor an id: the edges of following
    and favoriting (which go by id), the articles and the sequence are
    what they were, however the call ends. *)
Theorem UpdateUserByEmail_frame (em : string) (update : transform User)
    (w w' : World) (r : result error User) :
  UpdateUserByEmail em update w = (w', r) ->
  followed_users (tables w') = followed_users (tables w)
  /\ favorited_articles (tables w') = favorited_articles (tables w)
  /\ articles (tables w') = articles (tables w)
  /\ id <$> users (tables w') = id <$> users (tables w)
  /\ pw_id <$> user_passwords (tables w')
     = pw_id <$> user_passwords (tables w)
  /\ users_id_seq w' = users_id_seq w.
Proof.
  intros H.
  assert (Hseq : users_id_seq w' = users_id_seq w).
  { destruct w as [T sq fs ntx lg]. run. cases; done. }
  apply UpdateUserByEmail_tables in H as [->|(u & T1 & uid & Hupd & ->)];
    [done|].
  apply update_user_done in Hupd as (-> & _). simpl.
  split_and!; try done.
  - rewrite <- list_fmap_compose. apply list_fmap_ext.
    intros i x _. simpl. unfold rekeyed. by case_bool_decide.
  - rewrite <- list_fmap_compose. apply list_fmap_ext.
    intros i x _. simpl. unfold rehashed. by case_bool_decide.
Qed.

Lemma NoDup_key_inj {A K} (key : A -> K) (l : list A) (x y : A) :
  NoDup (key <$> l) -> x ∈ l -> y ∈ l -> key x = key y -> x = y.
Proof.
  induction l as [|a l IH]; intros Hnd Hx Hy Hk; [by apply elem_of_nil in Hx|].
  rewrite fmap_cons in Hnd. apply NoDup_cons in Hnd as [Ha Hnd].
  apply elem_of_cons in Hx as [->|Hx], Hy as [->|Hy]; [done| | |by apply IH].
  - exfalso. apply Ha. rewrite Hk. by apply list_elem_of_fmap_2.
  - exfalso. apply Ha. rewrite <- Hk. by apply list_elem_of_fmap_2.
Qed.

Lemma filter_key_le1 {A K} `{!EqDecision K} (key : A -> K) (k : K)
    (l : list A) :
  NoDup (key <$> l) -> (length (filter (fun x => key x = k) l) <= 1)%nat.
Proof.
  induction l as [|a l IH]; intros Hnd; [simpl; lia|].
  rewrite fmap_cons in Hnd. apply NoDup_cons in Hnd as [Ha Hnd].
  destruct (decide (key a = k)) as [Hk|Hk].
  - rewrite filter_cons_True by done. simpl.
    destruct (filter (fun x => key x = k) l) as [|b rest] eqn:Hf; [simpl; lia|].
    exfalso. assert (Hb : b ∈ filter (fun x => key x = k) l)
      by (rewrite Hf; apply list_elem_of_here).
    apply list_elem_of_filter in Hb as [Hkb Hb]. apply Ha.
    rewrite Hk, <- Hkb. by apply list_elem_of_fmap_2.
  - rewrite filter_cons_False by done. by apply IH.
Qed.

Lemma fmap_same {A} (f : A -> A) (l : list A) :
  (forall x, x ∈ l -> f x = x) -> f <$> l = l.
Proof.
  induction l as [|a l IH]; intros Hf; [done|]. rewrite fmap_cons.
  rewrite Hf by apply list_elem_of_here. f_equal. apply IH.
  intros x Hx. by apply Hf, list_elem_of_further.
Qed.

Lemma set_users_same (T : Tables) : set_users T (users T) = T.
Proof. by destruct T. Qed.

Lemma set_user_passwords_same (T : Tables) :
  set_user_passwords T (user_passwords T) = T.
Proof. by destruct T. Qed.

(** Writing back what was read changes no row. *)
Lemma update_user_same (T : Tables) (u : UserRow) (p : PasswordRow) :
  schema_ok T -> u ∈ users T ->
  sql.update_user (email u) (user_of u p) T = Done (T, id u).
Proof.
  intros (Hid & Hem & Hun & _) Hu. unfold sql.update_user.
  fold (rekeyed (email u) (user_of u p)).
  assert (Hsame : rekeyed (email u) (user_of u p) <$> users T = users T).
  { apply fmap_same. intros r Hr. unfold rekeyed. case_bool_decide as He; [|done].
    rewrite (NoDup_key_inj email (users T) r u Hem Hr Hu He). by destruct u. }
  rewrite Hsame.
  destruct (filter (fun r => email r = email u) (users T)) as [|r0 rest] eqn:Hf.
  { assert (Hin : u ∈ filter (fun r => email r = email u) (users T))
      by by apply list_elem_of_filter.
    rewrite Hf in Hin. by apply elem_of_nil in Hin. }
  assert (Hr0 : r0 ∈ filter (fun r => email r = email u) (users T))
    by (rewrite Hf; apply list_elem_of_here).
  apply list_elem_of_filter in Hr0 as [He0 Hr0].
  rewrite (NoDup_key_inj email (users T) r0 u Hem Hr0 Hu He0).
  rewrite bool_decide_eq_false_2.
  - by rewrite set_users_same.
  - simpl.
    pose proof (filter_key_le1 email (email u) (users T) Hem).
    pose proof (filter_key_le1 username (username u) (users T) Hun).
    lia.
Qed.

Lemma update_password_same (T : Tables) (p : PasswordRow) :
  schema_ok T -> p ∈ user_passwords T ->
  sql.update_password (pw_id p) (hash p) T = Done (T, tt).
Proof.
  intros (_ & _ & _ & Hpw & _) Hp. unfold sql.update_password.
  rewrite fmap_same; [by rewrite set_user_passwords_same|].
  intros q Hq. case_bool_decide as He; [|done].
  rewrite (NoDup_key_inj pw_id (user_passwords T) q p Hpw Hq Hp He).
  by destruct p.
Qed.

(** X16: a transform that hands back the user it was given makes
    [UpdateUserByEmail] a read: the user is returned and the tables are
    what they were. *)
Theorem UpdateUserByEmail_unchanged (em : string) (update : transform User)
    (w : World) (v : User) :
  schema_ok (tables w) -> stored_user (tables w) em v -> calm 6 w ->
  update v = (Some v, None) ->
  exists w', UpdateUserByEmail em update w = (w', Ok v)
             /\ tables w' = tables w.
Proof.
  intros Hok Hst Hcalm Hupd. destruct w as [T sq fs ntx lg]. simpl in *.
  pose proof (select_user_keyed _ _ _ Hok Hst) as Hsel.
  destruct Hst as (u & p & Hu & Hp & <- & Hi & ->).
  pose proof (update_user_same T u p Hok Hu) as Hrow.
  pose proof (update_password_same T p Hok Hp) as Hpwd.
  rewrite <- Hi in Hpwd. unfold sql.update_password in Hpwd.
  injection Hpwd as Hpwd.
  calm_down Hcalm. run. known. rewrite Hupd. known.
  rewrite !Hpwd. known.
  eexists. split; reflexivity.
Qed.

(** X17: when [UpdateUserByEmail] has changed the email of a user, nobody
    is stored under the old email any more: a lookup by it finds
    nothing, and a lookup by the new email finds the user returned. *)
Theorem UpdateUserByEmail_old_email_gone (em : string)
    (update : transform User) (w w' : World) (v : User) :
  UpdateUserByEmail em update w = (w', Ok v) -> Email v <> em ->
  (forall x, ~ stored_user (tables w') em x)
  /\ (GetAuthorByEmail em w').2 = None
  /\ (calm 1 w' -> (GetAuthorByEmail (Email v) w').2 = Some v).
Proof.
  intros H Hne.
  apply UpdateUserByEmail_done in H
    as (u0 & u & T1 & uid & Hsel & Hupd & Hrow & HT & Hre & Htr).
  assert (Hv : v = u).
  { rewrite HT in Hre. by eapply reread_is_transformed. }
  subst v.
  assert (Hgone : forall x, ~ stored_user (tables w') em x).
  { intros x (r & p & Hr & _ & He & _). rewrite HT in Hr. simpl in Hr.
    apply update_user_done in Hrow as (-> & _). simpl in Hr.
    apply list_elem_of_fmap in Hr as (r' & -> & Hr').
    unfold rekeyed in He. case_bool_decide; simpl in He; congruence. }
  split; [done|]. apply select_user_none in Hgone.
  destruct w' as [T' sq fs ntx lg]. simpl in *. split.
  - run. destruct (pending fs); simpl; [done|]. by rewrite Hgone.
  - intros Hcalm. apply calm_one in Hcalm. simpl in Hcalm.
    run. rewrite Hcalm. simpl. by rewrite Hre.
Qed.

(** X18: a transform that returns neither a user nor an error makes the
    update panic where it reads the result, with a transaction open that
    is neither committed nor rolled back: [UpdateUserByEmail] right after
    the load, [UpdateFanboyByEmail] after its two deletes.  The tables
    are what they were. *)
Theorem nil_transform_panics (em : string) (w : World) (v : User) :
  schema_ok (tables w) -> stored_user (tables w) em v -> calm 8 w ->
  (forall update : transform User,
      update v = (None, None) ->
      exists w',
        UpdateUserByEmail em update w = (w', Panic)
        /\ tables w' = tables w
        /\ trace w w' = [EBegin (next_tx w);
                         EStmt (Some (next_tx w)) SelectUser None])
  /\ (forall update : transform Fanboy,
      (forall f, update f = (None, None)) ->
      exists w',
        UpdateFanboyByEmail ToLower em update w = (w', Panic)
        /\ tables w' = tables w
        /\ trace w w' = [EBegin (next_tx w);
                         EStmt (Some (next_tx w)) SelectUser None;
                         EStmt (Some (next_tx w)) SelectFollows None;
                         EStmt (Some (next_tx w)) SelectFavorites None;
                         ECommit (next_tx w) None;
                         EBegin (S (next_tx w));
                         EStmt (Some (S (next_tx w))) DeleteFollows None;
                         EStmt (Some (S (next_tx w))) DeleteFavorites None]).
Proof.
  intros Hok Hst Hcalm. destruct w as [T sq fs ntx lg]. simpl in *.
  pose proof (select_user_keyed _ _ _ Hok Hst) as Hsel.
  calm_down Hcalm. split.
  - intros update Hupd. run. known. rewrite Hupd.
    eexists. split; [reflexivity|]. settle_trace. done.
  - intros update Hupd. run. known. rewrite Hupd. known.
    eexists. split; [reflexivity|]. settle_trace. done.
Qed.

(** X19: [GetUserByEmail] only reads, inside the one transaction it begins,
    and it ends that transaction however the reads go; a user that is not
    stored is reported as [ErrUserNotFound], after which the transaction
    is still committed. *)
Theorem GetUserByEmail_read_only (em : string) (w w' : World)
    (r : result error Fanboy) :
  GetUserByEmail ToLower em w = (w', r) ->
  tables w' = tables w
  /\ users_id_seq w' = users_id_seq w
  /\ r <> Panic
  /\ (forall c s o, EStmt c s o ∈ trace w w' ->
        is_write s = false /\ c = Some (next_tx w))
  /\ (forall n, EBegin n ∈ trace w w' ->
        exists c, last (trace w w') = Some (ECommit n c))
  /\ ((forall x, ~ stored_user (tables w) em x) -> calm 2 w ->
      r = Err ErrUserNotFound
      /\ exists c, trace w w' = [EBegin (next_tx w);
                                 EStmt (Some (next_tx w)) SelectUser
                                       (Some ErrNoRows);
                                 ECommit (next_tx w) c]).
Proof.
  destruct w as [T sq fs ntx lg]. intros H. split_and!.
  - run. cases; done.
  - run. cases; done.
  - run. cases; done.
  - intros c s o. run. cases; settle_trace; intros Hin; set_unfold in Hin;
      destruct_or?; simplify_eq/=; done.
  - intros n. run. cases; settle_trace; intros Hin; set_unfold in Hin;
      destruct_or?; simplify_eq/=; eauto.
  - intros Hno Hcalm. simpl in *. apply select_user_none in Hno.
    calm_down Hcalm. run.
    repeat (first [rewrite Hcalm0 in H | rewrite Hcalm1 in H
                  | rewrite Hno in H]; simpl in H).
    cases; settle_trace; eauto.
Qed.

(** X20: where emails and slugs are in lower case, not empty and keys, and
    every edge leads to a row, a transform that hands back the Fanboy it
    was given makes [UpdateFanboyByEmail] leave the edges of following and
    of favoriting as they were. *)
Theorem UpdateFanboyByEmail_unchanged (em : string)
    (update : transform Fanboy) (w w' : World) :
  schema_ok (tables w) ->
  NoDup (article_id <$> articles (tables w)) ->
  NoDup (slug <$> articles (tables w)) ->
  (forall r, r ∈ users (tables w) ->
     ToLower (email r) = email r /\ email r <> "") ->
  (forall x, x ∈ articles (tables w) ->
     ToLower (slug x) = slug x /\ slug x <> "") ->
  (forall a b, (a, b) ∈ followed_users (tables w) ->
     exists t, t ∈ users (tables w) /\ id t = b) ->
  (forall a b, (a, b) ∈ favorited_articles (tables w) ->
     exists x, x ∈ articles (tables w) /\ article_id x = b) ->
  (forall f, update f = (Some f, None)) ->
  UpdateFanboyByEmail ToLower em update w = (w', Ok tt) ->
  (forall a b, (a, b) ∈ followed_users (tables w')
               <-> (a, b) ∈ followed_users (tables w))
  /\ (forall a b, (a, b) ∈ favorited_articles (tables w')
                  <-> (a, b) ∈ favorited_articles (tables w)).
Proof.
  intros Hok Haid Hslug Hlow Hlows Hfk Hfka Hid H.
  destruct Hok as (Hidk & Hemk & _).
  apply UpdateFanboyByEmail_done in H as (w1 & f0 & f & Hget & Hupd & ->).
  rewrite Hid in Hupd. injection Hupd as <-.
  apply GetUserByEmail_found in Hget
    as (follows & favors & c & _ & Hfo & Hfa & HFo & HFa & _).
  simpl. split.
  - intros a b. rewrite elem_of_replaced_edges, elem_of_followed_rows. split.
    + intros [[Hold _]|(u & t & Hu & Ht & He & Hk & -> & ->)]; [done|].
      apply elem_of_nonempty_keys in Hk as [Hk _].
      rewrite HFo, elem_of_list_to_set, list_elem_of_fmap in Hk.
      destruct Hk as (e & Hte & Hin).
      apply (elem_of_select_follows _ _ _ _ Hfo) in Hin
        as (u' & t' & Hu' & Ht' & He' & Hedge & ->).
      destruct (Hlow t' Ht') as [Hl _]. rewrite Hl in Hte.
      rewrite (NoDup_key_inj email _ t t' Hemk Ht Ht' Hte).
      rewrite (NoDup_key_inj email _ u u' Hemk Hu Hu'); [done|congruence].
    + intros Hedge.
      destruct (decide (Exists (fun u => email u = em /\ id u = a)
                               (users (tables w)))) as [Hex|Hno].
      * apply Exists_exists in Hex as (u & Hu & He & Hi). right.
        destruct (Hfk a b Hedge) as (t & Ht & Hb).
        destruct (Hlow t Ht) as [Hl Hne].
        exists u, t. split_and!; try done.
        apply elem_of_nonempty_keys. split; [|done].
        rewrite HFo, elem_of_list_to_set, list_elem_of_fmap.
        exists (email t). split; [done|].
        apply (elem_of_select_follows _ _ _ _ Hfo).
        exists u, t. split_and!; try done. by rewrite Hi, Hb.
      * left. split; [done|]. intros (u & Hu & He & Hi). apply Hno.
        apply Exists_exists. by exists u.
  - intros a b. rewrite elem_of_replaced_edges, elem_of_favorited_rows. split.
    + intros [[Hold _]|(u & t & Hu & Ht & He & Hk & -> & ->)]; [done|].
      apply elem_of_nonempty_keys in Hk as [Hk _].
      rewrite HFa, elem_of_list_to_set, list_elem_of_fmap in Hk.
      destruct Hk as (e & Hte & Hin).
      apply (elem_of_select_favorites _ _ _ _ Hfa) in Hin
        as (u' & t' & Hu' & Ht' & He' & Hedge & ->).
      destruct (Hlows t' Ht') as [Hl _]. rewrite Hl in Hte.
      rewrite (NoDup_key_inj slug _ t t' Hslug Ht Ht' Hte).
      rewrite (NoDup_key_inj email _ u u' Hemk Hu Hu'); [done|congruence].
    + intros Hedge.
      destruct (decide (Exists (fun u => email u = em /\ id u = a)
                               (users (tables w)))) as [Hex|Hno].
      * apply Exists_exists in Hex as (u & Hu & He & Hi). right.
        destruct (Hfka a b Hedge) as (t & Ht & Hb).
        destruct (Hlows t Ht) as [Hl Hne].
        exists u, t. split_and!; try done.
        apply elem_of_nonempty_keys. split; [|done].
        rewrite HFa, elem_of_list_to_set, list_elem_of_fmap.
        exists (slug t). split; [done|].
        apply (elem_of_select_favorites _ _ _ _ Hfa).
        exists u, t. split_and!; try done. by rewrite Hi, Hb.
      * left. split; [done|]. intros (u & Hu & He & Hi). apply Hno.
        apply Exists_exists. by exists u.
Qed.

Lemma CreateUser_seq (u : User) (w w' : World) (r : result error User) :
  CreateUser u w = (w', r) ->
  (tables w' = tables w /\ users_id_seq w <= users_id_seq w')
  \/ (tables w'
      = set_user_passwords
          (set_users (tables w)
             (users (tables w)
              ++ [mkUserRow (users_id_seq w) (Email u) (Username u)
                            (Bio u) (Image u)]))
          (user_passwords (tables w)
           ++ [mkPasswordRow (users_id_seq w) (Password u)])
      /\ users_id_seq w' = users_id_seq w + 1).
Proof.
  destruct w as [T sq fs ntx lg]. intros H. run. cases.
  all: repeat match goal with
         | Hi : sql.insert_user _ _ _ = Done _ |- _ =>
             apply insert_user_done in Hi as [-> ->]
         end.
  all: first [ left; split; [done|lia] | right; split; [done|lia] ].
Qed.

Lemma UpdateUserByEmail_seq (em : string) (update : transform User)
    (w w' : World) (r : result error User) :
  UpdateUserByEmail em update w = (w', r) ->
  users_id_seq w' = users_id_seq w.
Proof. destruct w as [T sq fs ntx lg]. intros H. run. cases; done. Qed.

Lemma seq_ok_ext (w w' : World) :
  id <$> users (tables w') = id <$> users (tables w) ->
  users_id_seq w <= users_id_seq w' ->
  seq_ok w -> seq_ok w'.
Proof.
  unfold seq_ok. intros Hid Hsq Hok.
  apply Forall_forall. intros r Hr.
  assert (Hin : id r ∈ id <$> users (tables w))
    by (rewrite <- Hid; by apply list_elem_of_fmap_2).
  apply list_elem_of_fmap in Hin as (r0 & -> & Hr0).
  rewrite Forall_forall in Hok. specialize (Hok r0 Hr0). lia.
Qed.

(** X21: the three writers keep the store in order.  Where emails,
    usernames and ids are keys, every credential belongs to a user, no
    edge is there twice and the sequence is ahead of the ids in use, all
    of this still holds after [CreateUser], after [UpdateUserByEmail]
    and after [UpdateFanboyByEmail], whatever they are given and however
    they end. *)
Theorem store_invariants_kept (w : World) :
  schema_ok (tables w) -> edges_ok (tables w) -> seq_ok w ->
  (forall u w' r, CreateUser u w = (w', r) ->
     schema_ok (tables w') /\ edges_ok (tables w') /\ seq_ok w')
  /\ (forall em update w' r, UpdateUserByEmail em update w = (w', r) ->
     schema_ok (tables w') /\ edges_ok (tables w') /\ seq_ok w')
  /\ (forall em update w' r,
       UpdateFanboyByEmail ToLower em update w = (w', r) ->
     schema_ok (tables w') /\ edges_ok (tables w') /\ seq_ok w').
Proof.
  intros Hok Hed Hseq.
  destruct (schema_ok_kept ToLower w Hok) as (HsC & HsU & HsF).
  split_and!.
  - intros u w' r H. split; [by specialize (HsC u); rewrite H in HsC|].
    apply CreateUser_seq in H as [[HT Hsq]|[HT Hsq]].
    + split; [by rewrite HT|]. apply (seq_ok_ext w); [by rewrite HT|done|done].
    + split; [by rewrite HT|]. unfold seq_ok in *. rewrite HT, Hsq. simpl.
      apply Forall_app. split.
      * eapply Forall_impl; [exact Hseq|]. simpl. intros x Hx. lia.
      * apply Forall_singleton. simpl. lia.
  - intros em update w' r H.
    split; [by specialize (HsU em update); rewrite H in HsU|].
    pose proof (UpdateUserByEmail_seq _ _ _ _ _ H) as Hsq.
    assert (Hfr : followed_users (tables w') = followed_users (tables w)
                  /\ favorited_articles (tables w')
                     = favorited_articles (tables w)
                  /\ articles (tables w') = articles (tables w)
                  /\ id <$> users (tables w') = id <$> users (tables w)).
    { apply UpdateUserByEmail_tables in H
        as [->|(u & T1 & uid & Hupd & ->)]; [done|].
      apply update_user_done in Hupd as (-> & _). simpl.
      split_and!; try done.
      rewrite <- list_fmap_compose. apply list_fmap_ext.
      intros i x _. simpl. unfold rekeyed. by case_bool_decide. }
    destruct Hfr as (Hfo & Hfa & Har & Hids). split.
    + unfold edges_ok in *. by rewrite Hfo, Hfa, Har.
    + apply (seq_ok_ext w); [done|lia|done].
  - intros em update w' r H.
    split; [by specialize (HsF em update); rewrite H in HsF|].
    pose proof (UpdateFanboyByEmail_writes ToLower _ _ _ _ _ H)
      as (Hus & _ & _ & _).
    pose proof (UpdateFanboyByEmail_tables _ _ _ _ _ H) as [Hsq Hr]. split.
    + destruct Hr as [->|HT]; [|by rewrite HT].
      by eapply full_replace_NoDup.
    + apply (seq_ok_ext w); [by rewrite Hus|lia|done].
Qed.

End Updating.

(** * The requests the logger leaves out *)

Section Skipper.
Import echohttp.
Variable ToLower : string -> string.

Lemma prefix_trans (a b c : string) :
  String.prefix a b = true -> String.prefix b c = true ->
  String.prefix a c = true.
Proof.
  revert b c. induction a as [|x a IH]; intros [|y b] [|z c]; simpl; try done.
  destruct (Ascii.ascii_dec x y) as [->|]; [|done].
  destruct (Ascii.ascii_dec y z) as [->|]; [|done]. apply IH.
Qed.

(** X22: the logger leaves out no request whose path, in lower case, does
    not begin with /api/user.  A request to the login route is left out
    whatever its method; a POST or PUT is left out exactly when the path
    begins with /api/user, the login route included; and with any other
    method only the login route is left out. *)
Theorem Skipper_routes (path method : string) :
  (Skipper ToLower path method = true ->
   String.prefix "/api/user" (ToLower path) = true)
  /\ (String.prefix "/api/users/login" (ToLower path) = true ->
      Skipper ToLower path method = true)
  /\ (method = MethodPost \/ method = MethodPut ->
      Skipper ToLower path method = String.prefix "/api/user" (ToLower path))
  /\ (method <> MethodPost -> method <> MethodPut ->
      Skipper ToLower path method
      = String.prefix "/api/users/login" (ToLower path)).
Proof.
  assert (Hlogin : String.prefix "/api/users/login" (ToLower path) = true ->
                   String.prefix "/api/user" (ToLower path) = true).
  { apply prefix_trans. reflexivity. }
  unfold Skipper. split_and!.
  - destruct (String.prefix "/api/users/login" (ToLower path)); [auto|].
    destruct (String.prefix "/api/user" (ToLower path)); done.
  - by intros ->.
  - intros Hm.
    destruct (String.prefix "/api/users/login" (ToLower path));
      [by rewrite Hlogin|].
    destruct (String.prefix "/api/user" (ToLower path)); [|done].
    destruct Hm as [->| ->]; reflexivity.
  - intros Hpost Hput. apply String.eqb_neq in Hpost, Hput.
    rewrite Hpost, Hput. simpl. rewrite andb_false_r.
    by destruct (String.prefix "/api/users/login" (ToLower path)).
Qed.

Lemma filter_ext_in {A} (P Q : A -> Prop) `{!forall x, Decision (P x)}
    `{!forall x, Decision (Q x)} (l : list A) :
  (forall x, x ∈ l -> P x <-> Q x) -> filter P l = filter Q l.
Proof.
  induction l as [|a l IH]; intros Hpq; [done|].
  assert (Hl : filter P l = filter Q l).
  { apply IH. intros x Hx. by apply Hpq, list_elem_of_further. }
  pose proof (Hpq a (list_elem_of_here a l)) as Ha.
  destruct (decide (P a)) as [Hp|Hp].
  - rewrite !filter_cons_True by tauto. by rewrite Hl.
  - rewrite !filter_cons_False by tauto. done.
Qed.

(** X23: of the seven routes of the user handler, the logger leaves out
    the three that take a password in the body of the request, POST
    /api/users, POST /api/users/login and PUT /api/user, and logs the
    other four; this for any [ToLower] that leaves the paths of the
    routes, which are in lower case, as they are. *)
Theorem Skipper_user_routes :
  (forall m p, (m, p) ∈ routes -> ToLower (route_path p) = route_path p) ->
  filter (fun r => Skipper ToLower (route_path r.2) r.1 = true) routes
  = [(MethodPost, "/users"); (MethodPost, "/users/login");
     (MethodPut, "/user")].
Proof.
  intros Hlow.
  rewrite (filter_ext_in _
             (fun r => Skipper (fun s => s) (route_path r.2) r.1 = true)).
  - vm_compute. reflexivity.
  - intros [m p] Hin. unfold Skipper. simpl. by rewrite (Hlow m p Hin).
Qed.

End Skipper.

(** * The operations at work on a small store *)


Lemma NewUser_required_fields_witness :
  userdomain.NewUser "a@x.com" "a" "" ""
    = Ok (userdomain.mkUser "a@x.com" "a" "" "" [])
  /\ userdomain.NewUserWithPassword (fun _ _ => Panic) "a@x.com" "a" ""
     = Err userdomain.ErrorRequiredNewUserFields.
Proof.
  destruct (NewUser_required_fields (fun _ _ => Panic)
              "a@x.com" "a" "" "" "pw") as (_ & Hok & Hpw & _).
  split; [apply Hok; discriminate | exact Hpw].
Defined.

Lemma StartFollowing_idempotent_witness :
  exists h',
    userdomain.StartFollowing example.h0 (Some 0%nat) (Some 1%nat) = Some h'
    /\ userdomain.IsFollowing h' (Some 0%nat) (Some 1%nat) = Some true
    /\ userdomain.StartFollowing h' (Some 0%nat) (Some 1%nat) = Some h'
    /\ (userdomain.IsFollowing example.h0 (Some 0%nat) (Some 1%nat) = Some true
        -> h' = example.h0).
Proof.
  apply StartFollowing_idempotent.
  - eexists. split; [reflexivity | constructor].
  - eexists. reflexivity.
Defined.

(** The store of the examples satisfies the constraints of its schema. *)
Example schema_ok_T0 : schema_ok example.T0 /\ edges_ok example.T0.
Proof. split; compute_done. Qed.

Lemma GetUserByEmail_derived_sets_witness :
  exists w' f,
    GetUserByEmail example.ToLower "u@x.com" example.w0 = (w', Ok f)
    /\ "a@x.com" ∈ Following f.
Proof.
  destruct (GetUserByEmail_derived_sets example.ToLower "u@x.com" example.w0
              (user_of example.u_row example.u_pw))
    as (w' & f & c & Hrun & _ & Hfol & _).
  - compute_done.
  - exists example.u_row, example.u_pw. split_and!; ground.
  - unfold calm. simpl. constructor.
  - exists w', f. split; [exact Hrun|]. apply Hfol.
    exists example.u_row, example.a_row. split_and!; ground.
Defined.

Lemma GetAuthorByEmail_author_or_nil_witness :
  (GetAuthorByEmail "u@x.com" example.w0).2
    = Some (user_of example.u_row example.u_pw)
  /\ (GetAuthorByEmail "u@x.com" example.w0_down).2 = None.
Proof.
  split.
  - destruct (GetAuthorByEmail_author_or_nil "u@x.com" example.w0)
      as (_ & Hsome & _). apply Hsome.
    + compute_done.
    + exists example.u_row, example.u_pw. split_and!; ground.
    + unfold calm. simpl. constructor.
  - destruct (GetAuthorByEmail_author_or_nil "u@x.com" example.w0_down)
      as (_ & _ & _ & _ & Hnone). apply Hnone.
    unfold calm. simpl. intros Hc. apply Forall_cons in Hc as [Hc _].
    discriminate Hc.
Defined.

Lemma UpdateFanboyByEmail_full_replace_witness :
  (1, 4) ∈ followed_users
             (tables (UpdateFanboyByEmail example.ToLower "u@x.com"
                        (example.set_sets {["b@x.com"; "c@x.com"]} {["s2"]})
                        example.w0).1).
Proof.
  destruct (UpdateFanboyByEmail_full_replace example.ToLower "u@x.com"
              (example.set_sets {["b@x.com"; "c@x.com"]} {["s2"]})
              example.w0
              (UpdateFanboyByEmail example.ToLower "u@x.com"
                 (example.set_sets {["b@x.com"; "c@x.com"]} {["s2"]})
                 example.w0).1)
    as (w1 & f0 & f & _ & Hupd & Hfol & _).
  - vm_compute. reflexivity.
  - injection Hupd as <-. apply Hfol. right.
    exists example.u_row, example.c_row. simpl.
    split_and!; ground.
Defined.

(** The scenario of section 8: a following set {a, b} updated to {b, c}
    leaves exactly {b, c}, on the table and as read back. *)
Example full_replace_a_b_to_b_c :
  let w' := (UpdateFanboyByEmail example.ToLower "u@x.com"
               (example.set_sets {["b@x.com"; "c@x.com"]} ∅) example.w0).1 in
  followed_users (tables w') = [(2, 1); (1, 3); (1, 4)]
  /\ Following <$> (match (GetUserByEmail example.ToLower "u@x.com" w').2 with
                    | Ok f => Some f
                    | _ => None
                    end)
     = Some {["b@x.com"; "c@x.com"]}.
Proof. split; vm_compute; reflexivity. Qed.

Lemma UpdateFanboyByEmail_keeps_users_witness :
  users (tables (UpdateFanboyByEmail example.ToLower "u@x.com"
                   (example.set_sets ∅ ∅) example.w0).1)
    = users example.T0
  /\ user_passwords (tables (UpdateFanboyByEmail example.ToLower "u@x.com"
                               (example.set_sets ∅ ∅) example.w0).1)
     = user_passwords example.T0.
Proof.
  destruct (UpdateFanboyByEmail_keeps_users example.ToLower "u@x.com"
              (example.set_sets ∅ ∅) example.w0) as (Hu & Hp & _).
  split; [exact Hu | exact Hp].
Defined.

Lemma transform_error_verbatim_witness :
  (exists w',
      UpdateUserByEmail "u@x.com" (example.failing (Failure "refused"))
        example.w0 = (w', Err (Failure "refused"))
      /\ tables w' = example.T0)
  /\ (UpdateFanboyByEmail example.ToLower "u@x.com"
        (example.failing (Failure "refused")) example.w0).2
     = Err (Failure "refused").
Proof.
  destruct (transform_error_verbatim example.ToLower "u@x.com"
              (Failure "refused") example.w0) as [HU HF].
  split.
  - edestruct (HU (example.failing (Failure "refused")))
      as (w' & Hrun & HT & _); [reflexivity | reflexivity | reflexivity |].
    exists w'. split; [exact Hrun | exact HT].
  - edestruct (HF (example.failing (Failure "refused")))
      as (Hrun & _); [vm_compute; reflexivity | reflexivity |].
    rewrite Hrun. reflexivity.
Defined.

Lemma unique_violation_is_duplicate_user_witness :
  exists w',
    CreateUser (mkUser "u@x.com" "someone" "" "" "pw") example.w0
      = (w', Err ErrDuplicateUser)
    /\ tables w' = example.T0.
Proof.
  destruct (unique_violation_is_duplicate_user example.w0
              (PgError UniqueViolation)) as (_ & _ & Hdup & _).
  destruct (Hdup (mkUser "u@x.com" "someone" "" "" "pw"))
    as (w' & Hrun & HT & _).
  - unfold calm. simpl. constructor.
  - exists example.u_row. split; [ground | left; reflexivity].
  - exists w'. split; [exact Hrun | exact HT].
Defined.

(** A failure of the store that is no unique violation comes back as it
    is, here from the insert of the users row, and nothing is kept. *)
Example CreateUser_connection_reset :
  CreateUser (mkUser "n@x.com" "n" "" "" "pw") example.w0_failing
  = (mkWorld example.T0 5 [] 1
       [EBegin 0;
        EStmt (Some 0%nat) InsertUser (Some (Failure "connection reset"));
        ERollback 0],
     Err (Failure "connection reset")).
Proof. reflexivity. Qed.

Lemma UpdateUserByEmail_rekeys_witness :
  (UpdateUserByEmail "u@x.com" (example.set_email "new@x.com") example.w0).2
    = Ok (mkUser "new@x.com" "u" "" "" "h1")
  /\ email <$> users (tables (UpdateUserByEmail "u@x.com"
                                (example.set_email "new@x.com") example.w0).1)
     = ["new@x.com"; "a@x.com"; "b@x.com"; "c@x.com"].
Proof.
  destruct (UpdateUserByEmail_rekeys "u@x.com" (example.set_email "new@x.com")
              example.w0
              (UpdateUserByEmail "u@x.com" (example.set_email "new@x.com")
                 example.w0).1
              (mkUser "new@x.com" "u" "" "" "h1"))
    as (u0 & u & Hsel & Hupd & Hrows & _ & Hv & _).
  - vm_compute. reflexivity.
  - split; [vm_compute; reflexivity|]. rewrite Hrows.
    vm_compute in Hsel. injection Hsel as <-.
    injection Hupd as <-. vm_compute. reflexivity.
Defined.

Lemma load_and_persist_transactions_witness :
  one_tx_protocol
    (trace example.w0
       (UpdateUserByEmail "u@x.com" (example.set_email "new@x.com")
          example.w0).1) = true
  /\ exists w',
      UpdateUserByEmail "nobody@x.com" example.keep example.w0
        = (w', Err ErrUserNotFound)
      /\ tables w' = example.T0.
Proof.
  destruct (load_and_persist_transactions example.ToLower "u@x.com"
              (example.set_email "new@x.com") example.keep example.w0)
    as (Hone & _).
  destruct (load_and_persist_transactions example.ToLower "nobody@x.com"
              example.keep example.keep example.w0)
    as (_ & _ & Hnf & _).
  split; [exact Hone|].
  destruct Hnf as (w' & Hrun & HT & _).
  - intros v Hv. apply user_rows_stored in Hv. vm_compute in Hv.
    by apply elem_of_nil in Hv.
  - unfold calm. simpl. constructor.
  - exists w'. split; [exact Hrun | exact HT].
Defined.

(** C5 does not hold of [UpdateFanboyByEmail] as it is stated: the load is
    not inside the transaction that performs the persist.  The load runs
    in transaction 0, which is committed; the writes run in
    transaction 1. *)
Lemma UpdateFanboyByEmail_loads_in_another_tx :
  trace example.w0
    (UpdateFanboyByEmail example.ToLower "u@x.com" example.keep example.w0).1
  = [EBegin 0; EStmt (Some 0%nat) SelectUser None;
     EStmt (Some 0%nat) SelectFollows None;
     EStmt (Some 0%nat) SelectFavorites None; ECommit 0 None;
     EBegin 1; EStmt (Some 1%nat) DeleteFollows None;
     EStmt (Some 1%nat) DeleteFavorites None;
     EStmt (Some 1%nat) InsertFollows None;
     EStmt (Some 1%nat) InsertFavorites None; ECommit 1 None]
  /\ one_tx_protocol
       (trace example.w0
          (UpdateFanboyByEmail example.ToLower "u@x.com" example.keep
             example.w0).1) = false.
Proof. split; vm_compute; reflexivity. Qed.

(** * The domain, the lookups and the writers at work *)

Lemma StopFollowing_unfollows_witness :
  exists h',
    userdomain.StopFollowing example.h1 (Some 0%nat) (Some 1%nat) = Some h'
    /\ userdomain.IsFollowing h' (Some 0%nat) (Some 1%nat) = Some false
    /\ userdomain.StopFollowing h' (Some 0%nat) (Some 1%nat) = Some h'
    /\ (userdomain.IsFollowing example.h1 (Some 0%nat) (Some 1%nat)
          = Some false -> h' = example.h1).
Proof.
  apply StopFollowing_unfollows.
  - eexists. split; [reflexivity|].
    split; [repeat constructor; by eexists | compute_done].
  - by eexists.
Defined.

Lemma StopFollowing_keeps_others_witness :
  userdomain.IsFollowing example.h1_unfollowed (Some 0%nat) (Some 2%nat)
  = userdomain.IsFollowing example.h1 (Some 0%nat) (Some 2%nat).
Proof.
  apply (StopFollowing_keeps_others example.h1 example.h1_unfollowed
           (Some 0%nat) (Some 1%nat) (Some 2%nat)).
  - eexists. split; [reflexivity|].
    split; [repeat constructor; by eexists | compute_done].
  - by eexists.
  - by eexists.
  - vm_compute. discriminate.
  - vm_compute. reflexivity.
Defined.

Lemma StartFollowing_StopFollowing_witness :
  exists h1,
    userdomain.StartFollowing example.h0 (Some 0%nat) (Some 1%nat) = Some h1
    /\ userdomain.IsFollowing h1 (Some 0%nat) (Some 1%nat) = Some true
    /\ userdomain.StopFollowing h1 (Some 0%nat) (Some 1%nat)
       = Some example.h0.
Proof.
  apply StartFollowing_StopFollowing.
  - eexists. split; [reflexivity|]. split; [constructor | compute_done].
  - by eexists.
  - reflexivity.
Defined.

Lemma following_ok_kept_witness :
  userdomain.following_ok example.h1_unfollowed (Some 0%nat).
Proof.
  apply (following_ok_kept example.h1 example.h1_unfollowed
           (Some 0%nat) (Some 1%nat) (Some 0%nat)).
  - eexists. split; [reflexivity|].
    split; [repeat constructor; by eexists | compute_done].
  - by eexists.
  - right. vm_compute. reflexivity.
  - eexists. split; [reflexivity|].
    split; [repeat constructor; by eexists | compute_done].
Defined.

Lemma StartFollowing_same_email_witness :
  userdomain.IsFollowing example.h2 (Some 0%nat) (Some 1%nat)
  = userdomain.IsFollowing example.h2 (Some 0%nat) (Some 3%nat)
  /\ userdomain.StartFollowing example.h2 (Some 0%nat) (Some 3%nat)
     = Some example.h2.
Proof.
  destruct (StartFollowing_same_email example.h2
              (Some 0%nat) (Some 1%nat) (Some 3%nat)) as [Hsame Hstart].
  - eexists. split; [reflexivity|]. repeat constructor; by eexists.
  - by eexists.
  - by eexists.
  - reflexivity.
  - split; [exact Hsame|]. apply Hstart. reflexivity.
Defined.

Lemma StartFollowing_nil_witness :
  exists h1,
    userdomain.StartFollowing example.h0 (Some 0%nat) None = Some h1
    /\ userdomain.IsFollowing h1 (Some 0%nat) (Some 1%nat) = None.
Proof.
  destruct (StartFollowing_nil example.h0 0%nat
              (userdomain.mkUser "a@x.com" "a" "" "" [])) as [Hnil _].
  - reflexivity.
  - destruct Hnil as (h1 & Hstart & Hpanic); [reflexivity|].
    exists h1. split; [exact Hstart|]. apply Hpanic.
Defined.

Lemma NewUserWithPasswordHash_drops_bio_image_witness :
  userdomain.NewUserWithPasswordHash "a@x.com" "a" "I work here" "a.png" "h"
  = Ok (userdomain.mkUserWithPassword
          (userdomain.mkUser "a@x.com" "a" "" "" []) "h").
Proof.
  destruct (NewUserWithPasswordHash_drops_bio_image
              "a@x.com" "a" "I work here" "a.png" "h") as (_ & _ & Hok).
  apply Hok; discriminate.
Defined.

Lemma NewUserWithPassword_hash_witness :
  exists uw,
    userdomain.NewUserWithPassword example.GenerateFromPassword
      "a@x.com" "a" "secret" = Ok uw
    /\ userdomain.Password uw = "$2a$secret"
    /\ userdomain.HasPassword example.CompareHashAndPassword uw "secret"
       = (true, None).
Proof.
  destruct (NewUserWithPassword_hash example.GenerateFromPassword
              example.CompareHashAndPassword "a@x.com" "a" "secret"
              "$2a$secret") as (uw & Hnew & Hpw & Hhas & _);
    [discriminate | discriminate | discriminate | reflexivity |].
  exists uw. split; [exact Hnew|]. split; [exact Hpw|].
  apply Hhas. reflexivity.
Defined.

Lemma GetUserByUsername_lookup_witness :
  (GetUserByUsername "u" example.w0).2
    = Ok (user_of example.u_row example.u_pw)
  /\ (GetUserByUsername "nobody" example.w0).2 = Err ErrUserNotFound.
Proof.
  split.
  - destruct (GetUserByUsername_lookup "u" example.w0)
      as (_ & _ & Hfound & _).
    apply Hfound; [compute_done|ground|ground|reflexivity|reflexivity|].
    unfold calm. simpl. constructor.
  - destruct (GetUserByUsername_lookup "nobody" example.w0)
      as (_ & _ & _ & Hnone & _).
    apply Hnone.
    + intros u p Hu _ _. simpl in Hu. set_unfold in Hu.
      destruct_or?; subst; done.
    + unfold calm. simpl. constructor.
Defined.

Lemma lookups_agree_witness :
  (GetAuthorByEmail "u@x.com" (GetUserByUsername "u" example.w0).1).2
  = Some (user_of example.u_row example.u_pw).
Proof.
  destruct (lookups_agree example.w0 (GetUserByUsername "u" example.w0).1
              (user_of example.u_row example.u_pw)) as [Hun _].
  - compute_done.
  - unfold calm. simpl. constructor.
  - destruct (Hun "u") as [_ Hem]; [reflexivity|]. exact Hem.
Defined.

Lemma CreateUser_then_lookup_witness :
  exists w',
    CreateUser example.n_user example.w0 = (w', Ok example.n_user)
    /\ (GetUserByUsername "n" w').2 = Ok example.n_user.
Proof.
  destruct (CreateUser_then_lookup example.n_user example.w0)
    as (w' & Hrun & _ & _ & _ & _ & Hun & _).
  - compute_done.
  - unfold seq_ok. simpl. repeat constructor.
  - intros r Hr. simpl in Hr. set_unfold in Hr.
    destruct_or?; subst; done.
  - unfold calm. simpl. constructor.
  - exists w'. split; [exact Hrun | exact Hun].
Defined.

Lemma CreateUser_reread_failure_witness :
  exists w',
    CreateUser example.n_user example.w0_reread_fails
      = (w', Err (Failure "connection reset"))
    /\ stored_user (tables w') "n@x.com" example.n_user.
Proof.
  destruct (CreateUser_reread_failure example.n_user example.w0_reread_fails
              "connection reset" [])
    as (w' & Hrun & Hst & _).
  - unfold seq_ok. simpl. repeat constructor.
  - intros r Hr. simpl in Hr. set_unfold in Hr.
    destruct_or?; subst; done.
  - reflexivity.
  - exists w'. split; [exact Hrun | exact Hst].
Defined.


Lemma UpdateFanboyByEmail_all_or_nothing_witness :
  tables (UpdateFanboyByEmail example.ToLower "u@x.com"
            (example.set_sets ∅ ∅) example.w0_failing).1
  = example.T0.
Proof.
  destruct (UpdateFanboyByEmail_all_or_nothing example.ToLower "u@x.com"
              (example.set_sets ∅ ∅) example.w0_failing
              (UpdateFanboyByEmail example.ToLower "u@x.com"
                 (example.set_sets ∅ ∅) example.w0_failing).1
              (UpdateFanboyByEmail example.ToLower "u@x.com"
                 (example.set_sets ∅ ∅) example.w0_failing).2)
    as (_ & Hrb).
  - apply surjective_pairing.
  - apply Hrb. vm_compute. discriminate.
Defined.

Lemma UpdateUserByEmail_frame_witness :
  followed_users
    (tables (UpdateUserByEmail "u@x.com" (example.set_email "new@x.com")
               example.w0).1)
  = [(1, 2); (1, 3); (2, 1)].
Proof.
  destruct (UpdateUserByEmail_frame "u@x.com" (example.set_email "new@x.com")
              example.w0
              (UpdateUserByEmail "u@x.com" (example.set_email "new@x.com")
                 example.w0).1
              (UpdateUserByEmail "u@x.com" (example.set_email "new@x.com")
                 example.w0).2)
    as (Hfo & _).
  - apply surjective_pairing.
  - exact Hfo.
Defined.

Lemma UpdateUserByEmail_unchanged_witness :
  exists w',
    UpdateUserByEmail "u@x.com" example.keep example.w0
      = (w', Ok (user_of example.u_row example.u_pw))
    /\ tables w' = example.T0.
Proof.
  apply (UpdateUserByEmail_unchanged "u@x.com" example.keep example.w0).
  - compute_done.
  - exists example.u_row, example.u_pw. split_and!; ground.
  - unfold calm. simpl. constructor.
  - reflexivity.
Defined.

Lemma UpdateUserByEmail_old_email_gone_witness :
  (GetAuthorByEmail "u@x.com"
     (UpdateUserByEmail "u@x.com" (example.set_email "new@x.com")
        example.w0).1).2
  = None.
Proof.
  destruct (UpdateUserByEmail_old_email_gone "u@x.com"
              (example.set_email "new@x.com") example.w0
              (UpdateUserByEmail "u@x.com" (example.set_email "new@x.com")
                 example.w0).1
              (mkUser "new@x.com" "u" "" "" "h1"))
    as (_ & Hgone & _).
  - vm_compute. reflexivity.
  - discriminate.
  - exact Hgone.
Defined.

Lemma nil_transform_panics_witness :
  (UpdateUserByEmail "u@x.com" example.nothing example.w0).2 = Panic
  /\ (UpdateFanboyByEmail example.ToLower "u@x.com" example.nothing
        example.w0).2 = Panic.
Proof.
  destruct (nil_transform_panics example.ToLower "u@x.com" example.w0
              (user_of example.u_row example.u_pw)) as [HU HF].
  - compute_done.
  - exists example.u_row, example.u_pw. split_and!; ground.
  - unfold calm. simpl. constructor.
  - split.
    + destruct (HU example.nothing) as (w' & Hrun & _); [reflexivity|].
      by rewrite Hrun.
    + destruct (HF example.nothing) as (w' & Hrun & _); [reflexivity|].
      by rewrite Hrun.
Defined.

Lemma GetUserByEmail_read_only_witness :
  tables (GetUserByEmail example.ToLower "nobody@x.com" example.w0).1
    = example.T0
  /\ (GetUserByEmail example.ToLower "nobody@x.com" example.w0).2
     = Err ErrUserNotFound.
Proof.
  destruct (GetUserByEmail_read_only example.ToLower "nobody@x.com"
              example.w0
              (GetUserByEmail example.ToLower "nobody@x.com" example.w0).1
              (GetUserByEmail example.ToLower "nobody@x.com" example.w0).2)
    as (HT & _ & _ & _ & _ & Hnf).
  - apply surjective_pairing.
  - split; [exact HT|]. apply Hnf.
    + intros v Hv. apply user_rows_stored in Hv. vm_compute in Hv.
      by apply elem_of_nil in Hv.
    + unfold calm. simpl. constructor.
Defined.

Lemma UpdateFanboyByEmail_unchanged_witness :
  (1, 3) ∈ followed_users
             (tables (UpdateFanboyByEmail example.ToLower "u@x.com"
                        example.keep example.w0).1).
Proof.
  destruct (UpdateFanboyByEmail_unchanged example.ToLower "u@x.com"
              example.keep example.w0
              (UpdateFanboyByEmail example.ToLower "u@x.com" example.keep
                 example.w0).1) as [Hfo _].
  - compute_done.
  - compute_done.
  - compute_done.
  - intros r Hr. simpl in Hr. set_unfold in Hr. destruct_or?; subst; done.
  - intros x Hx. simpl in Hx. set_unfold in Hx. destruct_or?; subst; done.
  - intros a b Hab. simpl in Hab. set_unfold in Hab.
    destruct_or?; simplify_eq; apply Exists_exists; compute_done.
  - intros a b Hab. simpl in Hab. set_unfold in Hab.
    destruct_or?; simplify_eq; apply Exists_exists; compute_done.
  - reflexivity.
  - vm_compute. reflexivity.
  - apply Hfo. ground.
Defined.

Lemma store_invariants_kept_witness :
  schema_ok (tables (CreateUser example.n_user example.w0).1)
  /\ edges_ok (tables (CreateUser example.n_user example.w0).1)
  /\ seq_ok (CreateUser example.n_user example.w0).1.
Proof.
  destruct (store_invariants_kept example.ToLower example.w0) as (HC & _).
  - compute_done.
  - compute_done.
  - unfold seq_ok. simpl. repeat constructor.
  - apply (HC example.n_user _ (CreateUser example.n_user example.w0).2).
    apply surjective_pairing.
Defined.

Lemma Skipper_routes_witness :
  echohttp.Skipper example.ToLower "/api/Users" "POST" = true
  /\ echohttp.Skipper example.ToLower "/api/user" "GET" = false.
Proof.
  destruct (Skipper_routes example.ToLower "/api/Users" "POST")
    as (_ & _ & Hpost & _).
  destruct (Skipper_routes example.ToLower "/api/user" "GET")
    as (_ & _ & _ & Hget).
  split.
  - rewrite Hpost; [reflexivity | by left].
  - rewrite Hget; [reflexivity | discriminate | discriminate].
Defined.

Lemma Skipper_user_routes_witness :
  filter (fun r => echohttp.Skipper example.ToLower
                     (echohttp.route_path r.2) r.1 = true)
         echohttp.routes
  = [("POST", "/users"); ("POST", "/users/login"); ("PUT", "/user")].
Proof.
  apply Skipper_user_routes.
  intros m p Hin. unfold echohttp.routes in Hin. set_unfold in Hin.
  destruct_or?; simplify_eq; reflexivity.
Defined.
